(** * wandb.fastai.WandbCallback: a shallow embedding and its properties

    The development follows [src/wandb/fastai/__init__.py].  The callback
    is stateful Python: it mutates [self], a class attribute shared by all
    instances, files below the run directory and the learner, and it talks
    to the logging backend.  All of that is threaded through one [World]
    by a state-and-exception monad; calls to collaborators are recorded
    in a trace of [Event]s. *)

From Stdlib Require Import Floats ZArith Lia.
From stdpp Require Import functions strings gmap list.

Set Warnings "-inexact-float".
Local Open Scope Z_scope.

(** ** Python values and primitives *)

Module Py.

(** Exceptions the embedded code can raise. *)
Inductive exn :=
| ValueError (msg : string)
| TypeError (msg : string)
| IndexError (msg : string)
| IOError (msg : string).

(** How a call ends.  [Raise e]: the exception [e] goes to the caller
    and nothing was assigned before it.  [Abort e a]: the exception goes
    to the caller after assignments to [self], which stay; [a] is the
    instance as they leave it. *)
Inductive result (A : Type) :=
| Ok (a : A)
| Raise (e : exn)
| Abort (e : exn) (a : A).
Arguments Ok {A} a.
Arguments Raise {A} e.
Arguments Abort {A} e a.

Definition is_ok {A} (r : result A) : bool :=
  match r with Ok _ => true | Raise _ | Abort _ _ => false end.

(** Truth value of an optional string ([None] and [''] are false). *)
Definition truthy_str (s : option string) : bool :=
  match s with
  | None => false
  | Some s => negb (String.eqb s "")
  end.

(** Truth value of an optional list ([None] and [[]] are false). *)
Definition truthy_list {A} (l : option (list A)) : bool :=
  match l with
  | None | Some [] => false
  | Some (_ :: _) => true
  end.

(** [needle in hay] on strings. *)
Fixpoint contains (needle hay : string) : bool :=
  String.prefix needle hay
  || match hay with
     | EmptyString => false
     | String _ hay' => contains needle hay'
     end.

(** [{k: v for k, v in pairs}]: entries are stored left to right, so of
    two entries with one key the later one stays. *)
Definition dict_of {V} (pairs : list (string * V)) : gmap string V :=
  foldl (λ d kv, <[kv.1 := kv.2]> d) ∅ pairs.

(** [l[1:]] *)
Definition slice_from_1 {A} (l : list A) : list A := drop 1 l.

End Py.

Import Py.

(** ** Values exchanged with the collaborators *)

(** Trainable parameters; their serialised form is opaque to the
    callback, so a snapshot on disk is the parameters themselves. *)
Definition Params := list float.

(** An input of the validation set ([x.data], raw pixel data). *)
Definition Input := list Z.

(** A validation item [(x, y)]; the label is kept as it prints. *)
Definition Item := (Input * string)%type.

(** What [learn.predict(x)] returns, as far as the callback looks at it:
    [pred[0]] as it prints and [pred[1].shape]. *)
Record Pred := { pred_class : string; pred_shape : list nat }.

(** [wandb.Image(data, caption=...)] *)
Record Image := { img_data : Input; img_caption : string }.

(** A value of a logged field. *)
Inductive LogValue :=
| VInt (z : Z)
| VFloat (f : float)
| VImages (imgs : list Image).

(** The messages the callback prints. *)
Inductive Notice :=
| BetterModel (epoch : Z) (monitor : string) (value : float)
| LoadedBest (path : string).

(** Calls to the collaborators, in the order they are made. *)
Inductive Event :=
| EWatch (model : Params) (log : option string)
| EPrint (n : Notice)
| ESave (path : string) (snapshot : Params)
| ELoad (path : string) (purge : bool)
| EPurge
| ELog (fields : gmap string LogValue) (commit : bool).

(** The fast.ai learner, as far as the callback reads it. *)
Record Learner := {
  model : Params;
  valid_ds : list Item;
  recorder_names : list string;
  recorder_values : gmap string float;
  predict : Input → Pred;
}.

Definition set_model (p : Params) (l : Learner) : Learner :=
  {| model := p; valid_ds := valid_ds l; recorder_names := recorder_names l;
     recorder_values := recorder_values l; predict := predict l |}.

(** [wandb.run] *)
Record Run := { run_dir : string }.

(** How the file system answers an attempt to write a file, when it
    does not let it through: [open(path, 'wb')] raises and the file stays
    as it is, or the write breaks off and the file holds what it got. *)
Inductive Fault :=
| OpenFails
| SaveFails (partial : Params).

(** Everything outside [self] that the callback reads or writes. *)
Record World := {
  wandb_run : option Run;          (* wandb.run *)
  watch_called : bool;             (* WandbCallback.watch_called *)
  files : gmap string Params;      (* regular files, by path *)
  faults : string → option Fault;  (* paths that cannot be written *)
  learners : nat → Learner;        (* learner objects, by reference *)
  entropy : list nat;              (* state of the random module *)
  trace : list Event;              (* calls made so far, oldest first *)
}.

Definition set_watch_called (b : bool) (w : World) : World :=
  {| wandb_run := wandb_run w; watch_called := b; files := files w;
     faults := faults w; learners := learners w; entropy := entropy w;
     trace := trace w |}.

Definition set_files (fs : gmap string Params) (w : World) : World :=
  {| wandb_run := wandb_run w; watch_called := watch_called w; files := fs;
     faults := faults w; learners := learners w; entropy := entropy w;
     trace := trace w |}.

Definition set_learners (ls : nat → Learner) (w : World) : World :=
  {| wandb_run := wandb_run w; watch_called := watch_called w;
     files := files w; faults := faults w; learners := ls;
     entropy := entropy w;
     trace := trace w |}.

Definition set_entropy (e : list nat) (w : World) : World :=
  {| wandb_run := wandb_run w; watch_called := watch_called w;
     files := files w; faults := faults w; learners := learners w;
     entropy := e;
     trace := trace w |}.

Definition set_trace (t : list Event) (w : World) : World :=
  {| wandb_run := wandb_run w; watch_called := watch_called w;
     files := files w; faults := faults w; learners := learners w;
     entropy := entropy w; trace := t |}.

(** ** The monad of the embedding *)

(** Effects made before an exception stay: the world is returned in
    every case. *)
Definition M (A : Type) : Type := World → result A * World.

Definition ret {A} (a : A) : M A := λ w, (Ok a, w).

Definition bind {A B} (m : M A) (k : A → M B) : M B :=
  λ w, match m w with
       | (Ok a, w') => k a w'
       | (Raise e, w') => (Raise e, w')
       | (Abort e _, w') => (Raise e, w')
       end.

Definition raise {A} (e : exn) : M A := λ w, (Raise e, w).

Definition gets {A} (f : World → A) : M A := λ w, (Ok (f w), w).

Definition modify (f : World → World) : M unit := λ w, (Ok tt, f w).

Definition emit (e : Event) : M unit :=
  modify (λ w, set_trace (trace w ++ [e]) w).

Notation "x <- m ;; k" := (bind m (λ x, k))
  (at level 20, m at level 99, k at level 200, only parsing).
Notation "m ;; k" := (bind m (λ _, k))
  (at level 100, k at level 200, right associativity, only parsing).

(** ** The random module *)

Module Random.

(** Modelled from the spec: Python's [random.sample] is standard-library
    code, not among the sources.  The spec has it draw indices "uniformly
    at random without replacement": each draw picks one position of the
    pool of remaining candidates and removes it.  The position is taken
    from the random state, a list of raw random numbers. *)
Fixpoint draw (pool : list nat) (k : nat) (ent : list nat) : list nat :=
  match k, pool with
  | S k', _ :: _ =>
      let j := (hd 0 ent mod length pool)%nat in
      nth j pool 0%nat :: draw (delete j pool) k' (tl ent)
  | _, _ => []
  end.

(** [random.sample(range(n), k)]: as in the standard library, a
    [ValueError] unless [0 <= k <= n]; otherwise [k] draws, which use up
    [k] numbers of the random state. *)
Definition sample (n : nat) (k : Z) : M (list nat) :=
  if (k <? 0) || (Z.of_nat n <? k)
  then raise (ValueError "Sample larger than population or is negative")
  else
    ent <- gets entropy ;;
    modify (set_entropy (drop (Z.to_nat k) ent)) ;;
    ret (draw (seq 0 n) (Z.to_nat k) ent).

End Random.

(** ** fastai.callbacks.TrackerCallback *)

Module Tracker.

Inductive Direction := Min | Max.
Inductive Mode := Auto | Given (d : Direction).

(** The state a [TrackerCallback] keeps: the learner it is hooked to, the
    monitored name, the comparison ([np.less] for [Min], [np.greater] for
    [Max]) and the best value so far ([None] while unset). *)
Record t := {
  learn : nat;
  monitor : string;
  operator : Direction;
  best : option float;
}.

Definition set_best (b : option float) (s : t) : t :=
  {| learn := learn s; monitor := monitor s; operator := operator s;
     best := b |}.

(** Modelled from the spec: the comparison-mode resolution of
    [TrackerCallback.__init__], fast.ai code that is not among the sources
    (spec 4.1): "auto" is "min" when the monitored name contains "loss" or
    "error", else "max"; a given mode is used directly. *)
Definition resolve (mode : Mode) (monitor : string) : Direction :=
  match mode with
  | Auto =>
      if contains "loss" monitor || contains "error" monitor
      then Min else Max
  | Given d => d
  end.

(** Modelled from the spec: the start value of [best] (spec 3 and 4.2),
    [+infinity] for "min" and [-infinity] for "max". *)
Definition initial_best (d : Direction) : float :=
  match d with
  | Min => infinity
  | Max => neg_infinity
  end.

(** Modelled from the spec: [TrackerCallback.__init__], fast.ai code that
    is not among the sources.  Spec 3 has [best] "initialized per the
    comparison mode". *)
Definition init (learn : nat) (monitor : string) (mode : Mode) : t :=
  let op := resolve mode monitor in
  {| learn := learn; monitor := monitor; operator := op;
     best := Some (initial_best op) |}.

(** Modelled from the spec: [TrackerCallback.on_train_begin], fast.ai code
    that is not among the sources (spec 4.2): it resets [best]. *)
Definition on_train_begin (s : t) : t :=
  set_best (Some (initial_best (operator s))) s.

(** Modelled from the spec: [TrackerCallback.get_monitor_value], fast.ai
    code that is not among the sources (spec 4.3, step 1): the monitored
    value of this epoch, [None] when the recorder has none. *)
Definition get_monitor_value (s : t) : M (option float) :=
  gets (λ w, recorder_values (learners w (learn s)) !! monitor s).

(** Modelled from the spec: the comparison [self.operator], set by
    fast.ai code that is not among the sources (spec 4.3, step 2):
    strictly less for "min", strictly greater for "max", on binary64
    numbers. *)
Definition compare (d : Direction) (current best : float) : bool :=
  match d with
  | Min => PrimFloat.ltb current best
  | Max => PrimFloat.ltb best current
  end.

(** [self.operator(current, self.best)]; ordering a number and [None]
    is a [TypeError] in Python. *)
Definition apply_operator (s : t) (current : float) : M bool :=
  match best s with
  | Some b => ret (compare (operator s) current b)
  | None =>
      raise (TypeError "'<' not supported between 'float' and 'NoneType'")
  end.

End Tracker.

(** ** The learner's primitives used by the callback *)

Module Learn.

(** Modelled from the spec: [Learner.save(file)], fast.ai code that is not
    among the sources (spec 6): the current parameters are written to the
    file, replacing what it held.  The definition covers the whole of
    [with self.model_path.open('wb') as model_file:
    self.learn.save(model_file)] (src 115-116), which can fail (spec 5
    and 7): opening can raise, and then the file stays as it is; the write
    can break off, and then the file holds what it got; both are an
    [IOError] for the caller.  [ESave] records a write that was
    completed. *)
Definition save (ref : nat) (path : string) : M unit :=
  fault <- gets (λ w, faults w path) ;;
  p <- gets (λ w, model (learners w ref)) ;;
  match fault with
  | Some OpenFails => raise (IOError "cannot open the file for writing")
  | Some (SaveFails partial) =>
      modify (λ w, set_files (<[path := partial]> (files w)) w) ;;
      raise (IOError "cannot write to the file")
  | None =>
      modify (λ w, set_files (<[path := p]> (files w)) w) ;;
      emit (ESave path p)
  end.

(** Modelled from the spec: [Learner.load(file, purge)], fast.ai code that
    is not among the sources (spec 4.4 and 6): the parameters read from
    the file replace those of the model; purging is the host's side
    effect, done only when asked for. *)
Definition load (ref : nat) (path : string) (snapshot : Params)
    (purge : bool) : M unit :=
  (if purge then emit EPurge else ret tt) ;;
  modify (λ w, set_learners (<[ref := set_model snapshot (learners w ref)]>
                               (learners w)) w) ;;
  emit (ELoad path purge).

End Learn.

(** ** WandbCallback *)

Module WandbCallback.

(** The arguments of the constructor. *)
Record Args := {
  arg_learn : nat;
  arg_log : option string;
  arg_save_model : bool;
  arg_monitor : string;
  arg_mode : Tracker.Mode;
  arg_data_type : option string;
  arg_validation_data : option (list Item);
  arg_predictions : Z;
}.

(** The defaults of the signature of [__init__]. *)
Definition default_args (learn : nat) : Args :=
  {| arg_learn := learn; arg_log := None; arg_save_model := false;
     arg_monitor := "val_loss"; arg_mode := Tracker.Auto;
     arg_data_type := Some "images"; arg_validation_data := None;
     arg_predictions := 32 |}.

(** The attributes of an instance; [super] holds those of the
    [TrackerCallback] it extends. *)
Record t := {
  super : Tracker.t;
  save_model : bool;
  model_path : string;
  log : option string;
  data_type : option string;
  validation_data : option (list Item);
}.

Definition learn (self : t) : nat := Tracker.learn (super self).
Definition monitor (self : t) : string := Tracker.monitor (super self).
Definition operator (self : t) : Tracker.Direction :=
  Tracker.operator (super self).
Definition best (self : t) : option float := Tracker.best (super self).

Definition set_super (s : Tracker.t) (self : t) : t :=
  {| super := s; save_model := save_model self;
     model_path := model_path self; log := log self;
     data_type := data_type self;
     validation_data := validation_data self |}.

Definition set_best (b : option float) (self : t) : t :=
  set_super (Tracker.set_best b (super self)) self.

Definition set_validation_data (v : option (list Item)) (self : t) : t :=
  {| super := super self; save_model := save_model self;
     model_path := model_path self; log := log self;
     data_type := data_type self; validation_data := v |}.

(** [Path(dir) / 'bestmodel.pth'] *)
Definition bestmodel_path (dir : string) : string :=
  dir +:+ "/bestmodel.pth".

(** [[ds[i] for i in indices]] *)
Fixpoint items_at (ds : list Item) (indices : list nat) : M (list Item) :=
  match indices with
  | [] => ret []
  | i :: rest =>
      match ds !! i with
      | Some it =>
          its <- items_at ds rest ;;
          ret (it :: its)
      | None => raise (IndexError "index out of range")
      end
  end.

Definition __init__ (a : Args) : M t :=
  (* Check if wandb.init has been called *)
  run <- gets wandb_run ;;
  match run with
  | None =>
      raise (ValueError "You must call wandb.init() before WandbCallback()")
  | Some run =>
      let self :=
        {| super := Tracker.init (arg_learn a) (arg_monitor a) (arg_mode a);
           save_model := arg_save_model a;
           model_path := bestmodel_path (run_dir run);
           log := arg_log a;
           data_type := arg_data_type a;
           validation_data := None |} in
      let self := set_best None self in
      (* Select items for sample predictions *)
      let self := set_validation_data (arg_validation_data a) self in
      if truthy_str (arg_data_type a)
         && negb (truthy_list (validation_data self))
      then
        ds <- gets (λ w, valid_ds (learners w (arg_learn a))) ;;
        let predictions :=
          Z.min (arg_predictions a) (Z.of_nat (length ds)) in
        indices <- Random.sample (length ds) predictions ;;
        items <- items_at ds indices ;;
        ret (set_validation_data (Some items) self)
      else ret self
  end.

Definition on_train_begin (self : t) : M t :=
  (* Set self.best, method inherited from "TrackerCallback" *)
  let self := set_super (Tracker.on_train_begin (super self)) self in
  (* Ensure we don't call "watch" multiple times *)
  called <- gets watch_called ;;
  if negb called then
    modify (set_watch_called true) ;;
    m <- gets (λ w, model (learners w (learn self))) ;;
    emit (EWatch m (log self)) ;;
    ret self
  else ret self.

Definition newline : string := String (Ascii.ascii_of_nat 10) "".

(** ['Ground Truth: {}\nPrediction: {}'.format(y, pred[0])] *)
Definition caption (y pred0 : string) : string :=
  "Ground Truth: " +:+ y +:+ newline +:+ "Prediction: " +:+ pred0.

(** The loop over [self.validation_data]: an image for every item whose
    prediction is a scalar. *)
Fixpoint pred_log (l : Learner) (items : list Item) : list Image :=
  match items with
  | [] => []
  | (x, y) :: rest =>
      let pred := predict l x in
      match pred_shape pred with
      | [] =>
          {| img_data := x; img_caption := caption y (pred_class pred) |}
          :: pred_log l rest
      | _ :: _ => pred_log l rest
      end
  end.

(** [[epoch, smooth_loss] + last_metrics] *)
Definition stats (epoch : Z) (smooth_loss : float)
    (last_metrics : list float) : list LogValue :=
  [VInt epoch; VFloat smooth_loss] ++ (VFloat <$> last_metrics).

(** The [logs] dictionary of [on_epoch_end]. *)
Definition logs (names : list string) (epoch : Z) (smooth_loss : float)
    (last_metrics : list float) : gmap string LogValue :=
  dict_of
    (slice_from_1 (zip names (stats epoch smooth_loss last_metrics))).

(** A step [m] made after assignments that left the instance as [self]:
    when it returns the instance is [self]; when it raises, the
    assignments stay. *)
Definition with_self (self : t) (m : M unit) : M t :=
  λ w, match m w with
       | (Ok _, w') => (Ok self, w')
       | (Raise e, w') | (Abort e _, w') => (Abort e self, w')
       end.

(** The "save_model" block of [on_epoch_end]. *)
Definition save_best (self : t) (epoch : Z) : M t :=
  current <- Tracker.get_monitor_value (super self) ;;
  match current with
  | None => ret self
  | Some current =>
      better <- Tracker.apply_operator (super self) current ;;
      if better : bool then
        emit (EPrint (BetterModel epoch (monitor self) current)) ;;
        let self := set_best (Some current) self in
        (* Save within wandb folder *)
        with_self self (Learn.save (learn self) (model_path self))
      else ret self
  end.

(** What follows the "save_model" block. *)
Definition log_epoch (self : t) (epoch : Z) (smooth_loss : float)
    (last_metrics : list float) : M t :=
  (* Log sample predictions *)
  (if truthy_list (validation_data self) then
     l <- gets (λ w, learners w (learn self)) ;;
     emit (ELog {[ "Prediction Samples" :=
                   VImages (pred_log l (default [] (validation_data self))) ]}
                false)
   else ret tt) ;;
  (* Log losses & metrics *)
  names <- gets (λ w, recorder_names (learners w (learn self))) ;;
  emit (ELog (logs names epoch smooth_loss last_metrics) true) ;;
  ret self.

(** An exception of the "save_model" block ends the call; the
    assignments made before it stay. *)
Definition on_epoch_end (self : t) (epoch : Z) (smooth_loss : float)
    (last_metrics : list float) : M t :=
  λ w,
    match (if save_model self then save_best self epoch else ret self) w with
    | (Ok self, w') => log_epoch self epoch smooth_loss last_metrics w'
    | (Raise e, w') => (Raise e, w')
    | (Abort e self, w') => (Abort e self, w')
    end.

Definition on_train_end (self : t) : M unit :=
  if save_model self then
    fs <- gets files ;;
    match fs !! model_path self with
    | Some snapshot =>
        Learn.load (learn self) (model_path self) snapshot false ;;
        emit (EPrint (LoadedBest (model_path self)))
    | None => ret tt
    end
  else ret tt.

End WandbCallback.

(** ** The process: instances and the calls of the training loop *)

Module Process.

(** What can happen in a process: an observer is constructed, the
    training loop calls a hook of the [i]-th observer, or the training
    loop changes a learner (new parameters, new recorder entries). *)
Inductive Op :=
| Construct (a : WandbCallback.Args)
| TrainBegin (i : nat)
| EpochEnd (i : nat) (epoch : Z) (smooth_loss : float)
    (last_metrics : list float)
| TrainEnd (i : nat)
| Train (ref : nat) (l : Learner).

Record State := {
  world : World;
  instances : list WandbCallback.t;
}.

(** What a call did to the world before raising stays, and so do the
    assignments it made to the instance; a call that raises before any
    assignment leaves the instance as it was. *)
Definition store {A} (s : State) (r : result A * World)
    (put : A → list WandbCallback.t) : State :=
  match r with
  | (Ok a, w') | (Abort _ a, w') => {| world := w'; instances := put a |}
  | (Raise _, w') => {| world := w'; instances := instances s |}
  end.

Definition step (s : State) (op : Op) : State :=
  match op with
  | Construct a =>
      match WandbCallback.__init__ a (world s) with
      | (Ok self, w') =>
          {| world := w'; instances := instances s ++ [self] |}
      | (Raise _, w') | (Abort _ _, w') =>
          {| world := w'; instances := instances s |}
      end
  | TrainBegin i =>
      match instances s !! i with
      | Some self =>
          store s (WandbCallback.on_train_begin self (world s))
                (λ self', <[i := self']> (instances s))
      | None => s
      end
  | EpochEnd i epoch smooth_loss last_metrics =>
      match instances s !! i with
      | Some self =>
          store s (WandbCallback.on_epoch_end self epoch smooth_loss
                     last_metrics (world s))
                (λ self', <[i := self']> (instances s))
      | None => s
      end
  | TrainEnd i =>
      match instances s !! i with
      | Some self =>
          store s (WandbCallback.on_train_end self (world s))
                (λ _, instances s)
      | None => s
      end
  | Train ref l =>
      {| world := set_learners (<[ref := l]> (learners (world s))) (world s);
         instances := instances s |}
  end.

Definition run (ops : list Op) (s : State) : State := foldl step s ops.

(** A process starts with the class attribute [False] and nothing
    done. *)
Definition initial (s : State) : Prop :=
  watch_called (world s) = false ∧ trace (world s) = []
  ∧ instances s = [].

End Process.

(** ** Observations on traces and closed forms

    Nothing below is part of the embedding: these are the notions the
    statements are written with, and the closed forms of worlds and
    instances that the proofs show the embedded code to compute. *)

Definition is_watch (e : Event) : bool :=
  match e with EWatch _ _ => true | _ => false end.

(** The number of "inspect model" requests made. *)
Fixpoint watch_requests (t : list Event) : nat :=
  match t with
  | [] => 0
  | e :: t' => (if is_watch e then 1 else 0) + watch_requests t'
  end%nat.

(** The checkpoint writes made, oldest first. *)
Fixpoint written (t : list Event) : list (string * Params) :=
  match t with
  | [] => []
  | ESave path p :: t' => (path, p) :: written t'
  | _ :: t' => written t'
  end.


(** What a call added to the trace. *)
Definition emitted (w w' : World) : list Event :=
  drop (length (trace w)) (trace w').

(** [s] occurs in [t]. *)
Definition is_substring (s t : string) : Prop :=
  ∃ pre post, t = pre +:+ s +:+ post.

(** Does the constructor draw a sample: [data_type and not
    validation_data]. *)
Definition needs_draw (a : WandbCallback.Args) : bool :=
  truthy_str (WandbCallback.arg_data_type a)
  && negb (truthy_list (WandbCallback.arg_validation_data a)).

(** The number of indices the constructor asks [random.sample] for. *)
Definition draw_count (a : WandbCallback.Args) (w : World) : Z :=
  Z.min (WandbCallback.arg_predictions a)
        (Z.of_nat (length (valid_ds (learners w (WandbCallback.arg_learn a))))).

(** The instance a successful construction returns, up to the sample
    set [v] it ends with. *)
Definition constructed (a : WandbCallback.Args) (run : Run)
    (v : option (list Item)) : WandbCallback.t :=
  {| WandbCallback.super :=
       Tracker.set_best None
         (Tracker.init (WandbCallback.arg_learn a)
            (WandbCallback.arg_monitor a) (WandbCallback.arg_mode a));
     WandbCallback.save_model := WandbCallback.arg_save_model a;
     WandbCallback.model_path :=
       WandbCallback.bestmodel_path (run_dir run);
     WandbCallback.log := WandbCallback.arg_log a;
     WandbCallback.data_type := WandbCallback.arg_data_type a;
     WandbCallback.validation_data := v |}.

(** The value [get_monitor_value] finds in world [w]. *)
Definition monitored (self : WandbCallback.t) (w : World) : option float :=
  recorder_values (learners w (WandbCallback.learn self))
    !! WandbCallback.monitor self.

(** The monitored value is there and strictly better than [best]. *)
Definition is_better (self : WandbCallback.t) (w : World) : bool :=
  match monitored self w, WandbCallback.best self with
  | Some current, Some b =>
      Tracker.compare (WandbCallback.operator self) current b
  | _, _ => false
  end.

(** The event that logs the prediction samples of [self], if any. *)
Definition sample_events (self : WandbCallback.t) (w : World) : list Event :=
  if truthy_list (WandbCallback.validation_data self) then
    [ELog {[ "Prediction Samples" :=
             VImages (WandbCallback.pred_log
                        (learners w (WandbCallback.learn self))
                        (default [] (WandbCallback.validation_data self))) ]}
          false]
  else [].

(** The event that logs the metrics of an epoch. *)
Definition metric_event (self : WandbCallback.t) (epoch : Z)
    (smooth_loss : float) (last_metrics : list float) (w : World) : Event :=
  ELog (WandbCallback.logs
          (recorder_names (learners w (WandbCallback.learn self)))
          epoch smooth_loss last_metrics)
       true.

(** Does the event log prediction samples: images under the field
    "Prediction Samples". *)
Definition logs_samples (e : Event) : bool :=
  match e with
  | ELog fields _ =>
      match fields !! "Prediction Samples" with
      | Some (VImages _) => true
      | _ => false
      end
  | _ => false
  end.

(** The world after the notice and the checkpoint write of an epoch
    whose monitored value [current] is better. *)
Definition checkpointed (self : WandbCallback.t) (epoch : Z)
    (current : float) (w : World) : World :=
  let m := model (learners w (WandbCallback.learn self)) in
  set_trace
    (trace w
     ++ [EPrint (BetterModel epoch (WandbCallback.monitor self) current);
         ESave (WandbCallback.model_path self) m])
    (set_files (<[WandbCallback.model_path self := m]> (files w)) w).

(** The message of the [IOError] of a write that fails. *)
Definition fault_message (fault : Fault) : string :=
  match fault with
  | OpenFails => "cannot open the file for writing"
  | SaveFails _ => "cannot write to the file"
  end.

(** The world after the notice of such an epoch when the write of the
    checkpoint fails with [fault]. *)
Definition write_failed (self : WandbCallback.t) (epoch : Z)
    (current : float) (fault : Fault) (w : World) : World :=
  set_trace
    (trace w
     ++ [EPrint (BetterModel epoch (WandbCallback.monitor self) current)])
    match fault with
    | OpenFails => w
    | SaveFails partial =>
        set_files (<[WandbCallback.model_path self := partial]> (files w)) w
    end.

(** The world after the two logging steps of [on_epoch_end]. *)
Definition logged (self : WandbCallback.t) (epoch : Z) (smooth_loss : float)
    (last_metrics : list float) (w : World) : World :=
  set_trace
    (trace w ++ sample_events self w
     ++ [metric_event self epoch smooth_loss last_metrics w])
    w.

(** The call [op] is not a construction. *)
Definition is_hook (op : Process.Op) : bool :=
  match op with
  | Process.Construct _ => false
  | _ => true
  end.

(** A call that leaves the class attribute alone and asks for no
    inspection. *)
Definition silent (w w' : World) : Prop :=
  watch_called w' = watch_called w
  ∧ watch_requests (trace w') = watch_requests (trace w).

(** A random state that asks for [k] draws from a pool of [n], each
    number being a position of the pool it is used on.  With every such
    state as likely as any other, these are the outcomes of [k] uniform
    choices. *)
Fixpoint canonical (n k : nat) (ent : list nat) : Prop :=
  match k, ent with
  | O, [] => True
  | S k', r :: ent' => (r < n)%nat ∧ canonical (n - 1) k' ent'
  | _, _ => False
  end.

(** ** Sample data for the examples *)

Module Demo.

Definition learner : Learner :=
  {| model := [1.5; -0.5]%float;
     valid_ds := [([1], "cat"); ([2], "dog"); ([3], "bird")];
     recorder_names := ["epoch"; "train_loss"; "valid_loss"; "accuracy"];
     recorder_values := {[ "val_loss" := 0.5%float ]};
     predict := λ x, {| pred_class := "cat"; pred_shape := [] |} |}.

(** The learner after an epoch that gave the monitored metric [v]. *)
Definition learner_with (v : float) : Learner :=
  {| model := [v]; valid_ds := valid_ds learner;
     recorder_names := recorder_names learner;
     recorder_values := {[ "val_loss" := v ]};
     predict := predict learner |}.

Definition world : World :=
  {| wandb_run := Some {| run_dir := "/run" |};
     watch_called := false;
     files := ∅;
     faults := λ _, None;
     learners := λ _, learner;
     entropy := [7; 4; 9]%nat;
     trace := [] |}.

(** The same process before [wandb.init()]. *)
Definition world_no_run : World :=
  {| wandb_run := None; watch_called := false; files := ∅;
     faults := λ _, None; learners := λ _, learner;
     entropy := [7; 4; 9]%nat; trace := [] |}.

(** Default arguments but for a negative number of predictions. *)
Definition negative_args : WandbCallback.Args :=
  {| WandbCallback.arg_learn := 0; WandbCallback.arg_log := None;
     WandbCallback.arg_save_model := false;
     WandbCallback.arg_monitor := "val_loss";
     WandbCallback.arg_mode := Tracker.Auto;
     WandbCallback.arg_data_type := Some "images";
     WandbCallback.arg_validation_data := None;
     WandbCallback.arg_predictions := -1 |}.

(** The instance [WandbCallback(learn)] gives in [world], and the world
    it leaves. *)
Definition observer : WandbCallback.t :=
  constructed (WandbCallback.default_args 0) {| run_dir := "/run" |}
    (Some [([2], "dog"); ([1], "cat"); ([3], "bird")]).

Definition world_constructed : World := set_entropy [] world.

(** An observer that saves the best model, after [on_train_begin]. *)
Definition tracking : WandbCallback.t :=
  {| WandbCallback.super :=
       {| Tracker.learn := 0; Tracker.monitor := "val_loss";
          Tracker.operator := Tracker.Min; Tracker.best := Some infinity |};
     WandbCallback.save_model := true;
     WandbCallback.model_path := "/run/bestmodel.pth";
     WandbCallback.log := None;
     WandbCallback.data_type := Some "images";
     WandbCallback.validation_data :=
       Some [([2], "dog"); ([1], "cat"); ([3], "bird")] |}.

(** Recorder names as fast.ai gives them when it times the epochs. *)
Definition timed_names : list string :=
  ["epoch"; "train_loss"; "valid_loss"; "accuracy"; "time"].

(** Default arguments but for an explicit, empty sample set. *)
Definition empty_sample_args : WandbCallback.Args :=
  {| WandbCallback.arg_learn := 0; WandbCallback.arg_log := None;
     WandbCallback.arg_save_model := false;
     WandbCallback.arg_monitor := "val_loss";
     WandbCallback.arg_mode := Tracker.Auto;
     WandbCallback.arg_data_type := Some "images";
     WandbCallback.arg_validation_data := Some [];
     WandbCallback.arg_predictions := 32 |}.

(** A world where an earlier epoch has saved a checkpoint. *)
Definition world_saved : World :=
  set_files {[ "/run/bestmodel.pth" := [0.25]%float ]} world_constructed.

(** Two observers are constructed and trained one after the other. *)
Definition two_observers : list Process.Op :=
  [Process.Construct (WandbCallback.default_args 0);
   Process.TrainBegin 0;
   Process.EpochEnd 0 1 0.25 [0.3; 0.9]%float;
   Process.TrainEnd 0;
   Process.Construct (WandbCallback.default_args 1);
   Process.TrainBegin 1;
   Process.EpochEnd 1 1 0.25 [0.3; 0.9]%float;
   Process.TrainEnd 1].

(** Arguments that save the best model under the comparison [d]. *)
Definition saving_args (d : Tracker.Direction) : WandbCallback.Args :=
  {| WandbCallback.arg_learn := 0; WandbCallback.arg_log := None;
     WandbCallback.arg_save_model := true;
     WandbCallback.arg_monitor := "val_loss";
     WandbCallback.arg_mode := Tracker.Given d;
     WandbCallback.arg_data_type := None;
     WandbCallback.arg_validation_data := None;
     WandbCallback.arg_predictions := 32 |}.

(** A run of four epochs with the monitored values 5.0, 3.0, 4.0, 2.0. *)
Definition four_epochs (d : Tracker.Direction) : list Process.Op :=
  [Process.Construct (saving_args d);
   Process.TrainBegin 0;
   Process.Train 0 (learner_with 5.0); Process.EpochEnd 0 1 0.5 [5.0]%float;
   Process.Train 0 (learner_with 3.0); Process.EpochEnd 0 2 0.5 [3.0]%float;
   Process.Train 0 (learner_with 4.0); Process.EpochEnd 0 3 0.5 [4.0]%float;
   Process.Train 0 (learner_with 2.0); Process.EpochEnd 0 4 0.5 [2.0]%float;
   Process.TrainEnd 0].

Definition start : Process.State :=
  {| Process.world := world; Process.instances := [] |}.

End Demo.

(** ** Functions imported from fastai.core *)

Module Core.

Inductive error :=
| AttributeError (attr : string)
| IndexingError (msg : string).

Inductive try (A : Type) :=
| Done (a : A)
| Fail (e : error).
Arguments Done {A} a.
Arguments Fail {A} e.

(** A code object, as far as [func_args] reads it: the names of the
    local variables, arguments first, and the number of positional
    arguments. *)
Record Code := {
  co_varnames : list string;
  co_argcount : nat;
}.

(** A callable; one implemented outside Python has no [__code__]. *)
Record Func := { __code__ : option Code }.

(** [func.__code__.co_varnames[:code.co_argcount]] *)
Definition func_args (func : Func) : try (list string) :=
  match __code__ func with
  | Some code => Done (take (co_argcount code) (co_varnames code))
  | None => Fail (AttributeError "__code__")
  end.

(** [arg in func_args(func)] *)
Definition has_arg (func : Func) (arg : string) : try bool :=
  match func_args func with
  | Done args => Done (bool_decide (arg ∈ args))
  | Fail e => Fail e
  end.

(** The comprehension [{a: kwargs.pop(a) for a in args if a in kwargs}]:
    every argument found in [kwargs] is moved to [func_kwargs].  The
    second component is [kwargs] itself as the pops leave it. *)
Fixpoint pop_args {V} (args : list string)
    (func_kwargs kwargs : gmap string V) : gmap string V * gmap string V :=
  match args with
  | [] => (func_kwargs, kwargs)
  | a :: args' =>
      match kwargs !! a with
      | Some v => pop_args args' (<[a := v]> func_kwargs) (delete a kwargs)
      | None => pop_args args' func_kwargs kwargs
      end
  end.

Definition split_kwargs_by_func {V} (kwargs : gmap string V) (func : Func)
    : try (gmap string V * gmap string V) :=
  match func_args func with
  | Done args => Done (pop_args args ∅ kwargs)
  | Fail e => Fail e
  end.

(** What [grab_idx] is given, or returns: a tensor, or a list or a tuple
    of tensors. *)
Inductive Batch (T : Type) :=
| Tensor (t : T)
| PyList (l : list T)
| PyTuple (l : list T).
Arguments Tensor {T} t.
Arguments PyList {T} l.
Arguments PyTuple {T} l.

(** [isinstance(x, (tuple, list))] *)
Definition is_listy {T} (x : Batch T) : bool :=
  match x with
  | Tensor _ => false
  | PyList _ | PyTuple _ => true
  end.

Section GrabIdx.

(** The tensor library: [o[i]], [o[:, i]] and [o.cpu()].  Both ways of
    indexing can fail. *)
Context {T : Type}.
Variable select : T → Z → try T.
Variable select_column : T → Z → try T.
Variable cpu : T → T.

(** [[f(o) for o in l]], stopping at the first failure. *)
Fixpoint for_each (f : T → try T) (l : list T) : try (list T) :=
  match l with
  | [] => Done []
  | o :: l' =>
      match f o with
      | Done o' =>
          match for_each f l' with
          | Done r => Done (o' :: r)
          | Fail e => Fail e
          end
      | Fail e => Fail e
      end
  end.

(** [o[i].cpu()] or [o[:, i].cpu()] *)
Definition grab_one (i : Z) (batch_first : bool) (o : T) : try T :=
  match (if batch_first then select o i else select_column o i) with
  | Done o' => Done (cpu o')
  | Fail e => Fail e
  end.

Definition grab_idx (x : Batch T) (i : Z) (batch_first : bool)
    : try (Batch T) :=
  match x with
  | PyList l | PyTuple l =>
      match for_each (grab_one i batch_first) l with
      | Done r => Done (PyList r)
      | Fail e => Fail e
      end
  | Tensor t =>
      match grab_one i batch_first t with
      | Done t' => Done (Tensor t')
      | Fail e => Fail e
      end
  end.

End GrabIdx.

End Core.

(** ** Further observations *)

(** The number of committing log calls. *)
Fixpoint commits (t : list Event) : nat :=
  match t with
  | [] => 0
  | ELog _ true :: t' => S (commits t')
  | _ :: t' => commits t'
  end.

(** Is the prediction for the item a scalar? *)
Definition scalar (l : Learner) (it : Item) : bool :=
  match pred_shape (predict l it.1) with
  | [] => true
  | _ :: _ => false
  end.

(** The image logged for an item. *)
Definition image_of (l : Learner) (it : Item) : Image :=
  {| img_data := it.1;
     img_caption :=
       WandbCallback.caption it.2 (pred_class (predict l it.1)) |}.

(** The notice and the checkpoint write of an epoch, if it makes them. *)
Definition checkpoint_events (self : WandbCallback.t) (epoch : Z)
    (w : World) : list Event :=
  if WandbCallback.save_model self && is_better self w then
    match monitored self w with
    | Some current =>
        [EPrint (BetterModel epoch (WandbCallback.monitor self) current);
         ESave (WandbCallback.model_path self)
               (model (learners w (WandbCallback.learn self)))]
    | None => []
    end
  else [].

(** Two states of an instance with the same configuration: all but
    [best]. *)
Definition same_config (self self' : WandbCallback.t) : Prop :=
  WandbCallback.learn self' = WandbCallback.learn self
  ∧ WandbCallback.monitor self' = WandbCallback.monitor self
  ∧ WandbCallback.operator self' = WandbCallback.operator self
  ∧ WandbCallback.save_model self' = WandbCallback.save_model self
  ∧ WandbCallback.model_path self' = WandbCallback.model_path self
  ∧ WandbCallback.log self' = WandbCallback.log self
  ∧ WandbCallback.data_type self' = WandbCallback.data_type self
  ∧ WandbCallback.validation_data self' = WandbCallback.validation_data self.

(** Two learners that differ in their parameters at most. *)
Definition same_but_model (l l' : Learner) : Prop :=
  valid_ds l' = valid_ds l
  ∧ recorder_names l' = recorder_names l
  ∧ recorder_values l' = recorder_values l
  ∧ predict l' = predict l.

(** ** More sample data *)

Module Cases.

(** A learner whose predictions are not scalars (a segmentation mask,
    say). *)
Definition mask_learner : Learner :=
  {| model := [1.5]%float;
     valid_ds := [([1], "cat"); ([2], "dog")];
     recorder_names := ["epoch"; "train_loss"; "valid_loss"];
     recorder_values := {[ "val_loss" := 0.5%float ]};
     predict := λ x, {| pred_class := "mask"; pred_shape := [2; 2]%nat |} |}.

Definition mask_world : World :=
  {| wandb_run := Some {| run_dir := "/run" |}; watch_called := false;
     files := ∅; faults := λ _, None; learners := λ _, mask_learner;
     entropy := []; trace := [] |}.

(** A world whose run directory cannot be written. *)
Definition world_read_only : World :=
  {| wandb_run := Some {| run_dir := "/run" |}; watch_called := false;
     files := ∅; faults := λ _, Some OpenFails;
     learners := λ _, Demo.learner; entropy := []; trace := [] |}.

(** An observer with an explicit sample set, not saving the model. *)
Definition mask_observer : WandbCallback.t :=
  {| WandbCallback.super :=
       {| Tracker.learn := 0; Tracker.monitor := "val_loss";
          Tracker.operator := Tracker.Min; Tracker.best := None |};
     WandbCallback.save_model := false;
     WandbCallback.model_path := "/run/bestmodel.pth";
     WandbCallback.log := None;
     WandbCallback.data_type := Some "images";
     WandbCallback.validation_data := Some [([1], "cat"); ([2], "dog")] |}.

(** Arguments with an explicit sample set and a negative count. *)
Definition explicit_args : WandbCallback.Args :=
  {| WandbCallback.arg_learn := 0; WandbCallback.arg_log := None;
     WandbCallback.arg_save_model := false;
     WandbCallback.arg_monitor := "val_loss";
     WandbCallback.arg_mode := Tracker.Auto;
     WandbCallback.arg_data_type := Some "images";
     WandbCallback.arg_validation_data := Some [([9], "fish")];
     WandbCallback.arg_predictions := -1 |}.

(** [def f(a, b, *, c): d = 1]: two positional arguments, then a
    keyword-only one and a local. *)
Definition f : Core.Func :=
  {| Core.__code__ :=
       Some {| Core.co_varnames := ["a"; "b"; "c"; "d"];
               Core.co_argcount := 2 |} |}.

Definition kwargs : gmap string Z := {[ "a" := 1; "c" := 3; "x" := 7 ]}.

(** A tensor as its rows; indexing as in Python, negative indices
    counting from the end. *)
Definition index {A} (l : list A) (i : Z) : option A :=
  if (0 <=? i) then l !! Z.to_nat i
  else if (- Z.of_nat (length l) <=? i)
       then l !! Z.to_nat (Z.of_nat (length l) + i)
       else None.

Definition select (t : list (list Z)) (i : Z) : Core.try (list (list Z)) :=
  match index t i with
  | Some row => Core.Done [row]
  | None => Core.Fail (Core.IndexingError "index out of range")
  end.

Definition select_column (t : list (list Z)) (i : Z)
    : Core.try (list (list Z)) :=
  match mapM (λ row, index row i) t with
  | Some col => Core.Done [col]
  | None => Core.Fail (Core.IndexingError "index out of range")
  end.

End Cases.

(** ** Proof support *)

(** Unfold the monad down to functions on worlds. *)
Ltac mrun :=
  unfold bind, ret, raise, gets, modify, emit in *; simpl in *.

Lemma emitted_app (w w' : World) (evs : list Event) :
  trace w' = trace w ++ evs → emitted w w' = evs.
Proof.
  intros H. unfold emitted. rewrite H. apply drop_app_length.
Qed.

Lemma written_app (t1 t2 : list Event) :
  written (t1 ++ t2) = written t1 ++ written t2.
Proof.
  induction t1 as [|e t1 IH]; simpl; [done|].
  destruct e; simpl; rewrite IH; done.
Qed.

Lemma watch_requests_app (t1 t2 : list Event) :
  watch_requests (t1 ++ t2) = (watch_requests t1 + watch_requests t2)%nat.
Proof.
  induction t1 as [|e t1 IH]; simpl; [done|]. rewrite IH. lia.
Qed.

(** ** Strings *)

Section Strings.

Lemma append_cons (c : Ascii.ascii) (s t : string) :
  String c s +:+ t = String c (s +:+ t).
Proof. reflexivity. Qed.

Lemma prefix_spec (s t : string) :
  String.prefix s t = true ↔ ∃ post, t = s +:+ post.
Proof.
  revert t. induction s as [|a s IH]; intros t; simpl.
  - destruct t; split; eauto.
  - destruct t as [|b t]; simpl.
    + split; [done|]. intros [post H]. discriminate H.
    + destruct (Ascii.ascii_dec a b) as [->|Hne].
      * rewrite IH. split; intros [post H]; exists post;
          rewrite append_cons in *; congruence.
      * split; [done|]. intros [post H]. rewrite append_cons in H.
        congruence.
Qed.

Lemma contains_spec (s t : string) :
  contains s t = true ↔ is_substring s t.
Proof.
  unfold is_substring. induction t as [|c t IH].
  - cbn [contains]. rewrite orb_false_r, prefix_spec. split.
    + intros [post H]. exists "", post. done.
    + intros ([|c pre] & post & H); [exists post; done|discriminate H].
  - cbn [contains]. rewrite orb_true_iff, prefix_spec, IH. split.
    + intros [[post H]|(pre & post & H)].
      * exists "", post. done.
      * exists (String c pre), post. rewrite append_cons. congruence.
    + intros ([|c' pre] & post & H).
      * left. exists post. done.
      * right. exists pre, post. rewrite append_cons in H. congruence.
Qed.

End Strings.

(** ** Comparison mode *)

Section Mode.

Import Tracker.

Lemma resolve_auto_min (monitor : string) :
  resolve Auto monitor = Min
  ↔ is_substring "loss" monitor ∨ is_substring "error" monitor.
Proof.
  rewrite <- !contains_spec, <- orb_true_iff. unfold resolve.
  destruct (contains "loss" monitor || contains "error" monitor);
    split; congruence.
Qed.

(** C9. In "auto" mode the resolved mode is "min" exactly when the
    monitored name contains "loss" or "error" and "max" otherwise, so
    "min" for "val_loss" and "max" for "accuracy"; a given mode is used
    as it is; and the comparison of a constructed observer is the
    resolved one. *)
Theorem resolve_mode_spec :
  (∀ monitor,
     (resolve Auto monitor = Min
      ↔ is_substring "loss" monitor ∨ is_substring "error" monitor)
     ∧ (resolve Auto monitor = Max
        ↔ ¬ (is_substring "loss" monitor ∨ is_substring "error" monitor)))
  ∧ resolve Auto "val_loss" = Min
  ∧ resolve Auto "accuracy" = Max
  ∧ (∀ d monitor, resolve (Given d) monitor = d)
  ∧ (∀ learn monitor mode,
       operator (init learn monitor mode) = resolve mode monitor).
Proof.
  split; [|done]. intros name. split; [apply resolve_auto_min|].
  rewrite <- resolve_auto_min. destruct (resolve Auto name); split; done.
Qed.

(** Both comparisons are strict: a value is never better than itself. *)
Lemma compare_irrefl (d : Direction) (x : float) : compare d x x = false.
Proof.
  assert (PrimFloat.ltb x x = false) as H.
  { rewrite ltb_spec. unfold SFltb.
    destruct (Prim2SF x) as [s|s| |s m e]; simpl; try done.
    - by destruct s.
    - destruct s; by rewrite Z.compare_refl, Pos.compare_refl. }
  by destruct d.
Qed.

End Mode.

(** ** Sampling without replacement *)

Section RandomFacts.

Import Random.

Lemma pick_lookup (pool : list nat) (r : nat) :
  pool ≠ [] →
  pool !! (r mod length pool)%nat
  = Some (nth (r mod length pool)%nat pool 0%nat).
Proof.
  intros Hne.
  assert (r mod length pool < length pool)%nat as Hlt.
  { apply Nat.mod_upper_bound. by destruct pool. }
  destruct (nth_lookup_or_length pool (r mod length pool)%nat 0%nat); [done|lia].
Qed.

(** The sample is a sub-multiset of the pool: what is drawn leaves the
    pool. *)
Lemma draw_submseteq (k : nat) (pool ent : list nat) :
  draw pool k ent ⊆+ pool.
Proof.
  revert pool ent. induction k as [|k IH]; intros pool ent.
  - destruct pool; apply submseteq_nil_l.
  - destruct pool as [|x pool]; [done|]. cbn [draw].
    set (j := (hd 0%nat ent mod length (x :: pool))%nat).
    pose proof (pick_lookup (x :: pool) (hd 0%nat ent) ltac:(done)) as Hj.
    fold j in Hj.
    trans (nth j (x :: pool) 0%nat :: delete j (x :: pool)).
    + apply submseteq_skip, IH.
    + apply Permutation_submseteq. symmetry. by apply delete_Permutation.
Qed.

Lemma draw_length (k : nat) (pool ent : list nat) :
  length (draw pool k ent) = (k `min` length pool)%nat.
Proof.
  revert pool ent. induction k as [|k IH]; intros pool ent.
  - by destruct pool.
  - destruct pool as [|x pool]; [done|]. cbn [draw].
    set (j := (hd 0%nat ent mod length (x :: pool))%nat).
    pose proof (pick_lookup (x :: pool) (hd 0%nat ent) ltac:(done)) as Hj.
    fold j in Hj. cbn [length]. rewrite IH, length_delete by eauto.
    cbn [length]. lia.
Qed.

Lemma draw_NoDup (k : nat) (pool ent : list nat) :
  NoDup pool → NoDup (draw pool k ent).
Proof.
  destruct (submseteq_Permutation _ _ (draw_submseteq k pool ent))
    as [rest Hperm].
  intros Hnd. rewrite Hperm in Hnd. by apply NoDup_app in Hnd as [? _].
Qed.

Lemma draw_elem_of (k : nat) (pool ent : list nat) (x : nat) :
  x ∈ draw pool k ent → x ∈ pool.
Proof. intros H. eapply elem_of_submseteq; [done|apply draw_submseteq]. Qed.

(** [random.sample(range(n), k)] for [0 <= k <= n]: [k] pairwise
    different indices below [n]. *)
Lemma sample_ok (n : nat) (k : Z) (w : World) :
  0 ≤ k ≤ Z.of_nat n →
  sample n k w
  = (Ok (draw (seq 0 n) (Z.to_nat k) (entropy w)),
     set_entropy (drop (Z.to_nat k) (entropy w)) w).
Proof.
  intros [H0 Hn]. unfold sample.
  destruct (Z.ltb_spec k 0); [lia|]. destruct (Z.ltb_spec (Z.of_nat n) k); [lia|].
  reflexivity.
Qed.

Lemma sample_negative (n : nat) (k : Z) (w : World) :
  k < 0 →
  sample n k w
  = (Raise (ValueError "Sample larger than population or is negative"), w).
Proof.
  intros Hk. unfold sample. destruct (Z.ltb_spec k 0); [done|lia].
Qed.

Lemma sample_indices (n k : nat) (ent : list nat) :
  (k ≤ n)%nat →
  let indices := draw (seq 0 n) k ent in
  length indices = k ∧ NoDup indices ∧ ∀ i, i ∈ indices → (i < n)%nat.
Proof.
  intros Hk indices. split_and!.
  - unfold indices. rewrite draw_length, length_seq. lia.
  - apply draw_NoDup, NoDup_seq.
  - intros i Hi%draw_elem_of%elem_of_seq. lia.
Qed.

End RandomFacts.

(** ** Construction *)

Section Construction.

Import WandbCallback.

Lemma items_at_ok (ds : list Item) (indices : list nat) (w : World) :
  (∀ i, i ∈ indices → (i < length ds)%nat) →
  ∃ items,
    items_at ds indices w = (Ok items, w)
    ∧ Forall2 (λ i it, ds !! i = Some it) indices items.
Proof.
  induction indices as [|i rest IH]; intros Hlt.
  - exists []. split; [done|constructor].
  - destruct (lookup_lt_is_Some_2 ds i) as [it Hit]; [apply Hlt; left|].
    destruct IH as (its & Hrun & Hall); [intros j Hj; apply Hlt; by right|].
    exists (it :: its). split; [|by constructor].
    cbn [items_at]. rewrite Hit. mrun. by rewrite Hrun.
Qed.

Lemma init_no_run (a : Args) (w : World) :
  wandb_run w = None →
  __init__ a w
  = (Raise (ValueError "You must call wandb.init() before WandbCallback()"),
     w).
Proof. intros H. unfold __init__. mrun. by rewrite H. Qed.

Lemma init_no_draw (a : Args) (w : World) (run : Run) :
  wandb_run w = Some run →
  needs_draw a = false →
  __init__ a w = (Ok (constructed a run (arg_validation_data a)), w).
Proof.
  intros Hrun Hdraw. unfold __init__, needs_draw in *. mrun.
  rewrite Hrun. simpl. by rewrite Hdraw.
Qed.

Lemma init_draw (a : Args) (w : World) (run : Run) :
  wandb_run w = Some run →
  needs_draw a = true →
  0 ≤ arg_predictions a →
  let ds := valid_ds (learners w (arg_learn a)) in
  let k := Z.to_nat (draw_count a w) in
  let indices := Random.draw (seq 0 (length ds)) k (entropy w) in
  ∃ items,
    __init__ a w
    = (Ok (constructed a run (Some items)),
       set_entropy (drop k (entropy w)) w)
    ∧ Forall2 (λ i it, ds !! i = Some it) indices items.
Proof.
  intros Hrun Hdraw Hpos ds k indices.
  assert (0 ≤ draw_count a w ≤ Z.of_nat (length ds)) as Hk.
  { unfold draw_count. fold ds. lia. }
  destruct (sample_indices (length ds) k (entropy w)) as (_ & _ & Hlt);
    [unfold k; lia|].
  destruct (items_at_ok ds indices (set_entropy (drop k (entropy w)) w) Hlt)
    as (items & Hitems & Hall).
  exists items. split; [|done].
  unfold __init__, needs_draw in *. mrun. rewrite Hrun. simpl.
  rewrite Hdraw. fold ds. fold (draw_count a w).
  rewrite (sample_ok _ _ _ Hk). fold k. fold indices. by rewrite Hitems.
Qed.

Lemma init_negative (a : Args) (w : World) (run : Run) :
  wandb_run w = Some run →
  needs_draw a = true →
  arg_predictions a < 0 →
  __init__ a w
  = (Raise (ValueError "Sample larger than population or is negative"), w).
Proof.
  intros Hrun Hdraw Hneg. unfold __init__, needs_draw in *. mrun.
  rewrite Hrun. simpl. rewrite Hdraw.
  rewrite sample_negative; [done|lia].
Qed.

(** What a construction returns, by cases. *)
Lemma init_cases (a : Args) (w : World) (self : t) (w' : World) :
  __init__ a w = (Ok self, w') →
  ∃ run, wandb_run w = Some run
    ∧ ((needs_draw a = false ∧ self = constructed a run (arg_validation_data a)
        ∧ w' = w)
       ∨ (needs_draw a = true ∧ 0 ≤ arg_predictions a
          ∧ ∃ items,
              self = constructed a run (Some items)
              ∧ w' = set_entropy
                       (drop (Z.to_nat (draw_count a w)) (entropy w)) w
              ∧ Forall2
                  (λ i it, valid_ds (learners w (arg_learn a)) !! i = Some it)
                  (Random.draw
                     (seq 0 (length (valid_ds (learners w (arg_learn a)))))
                     (Z.to_nat (draw_count a w)) (entropy w))
                  items)).
Proof.
  intros Hinit. destruct (wandb_run w) as [run|] eqn:Hrun.
  - exists run. split; [done|]. destruct (needs_draw a) eqn:Hdraw.
    + right. split; [done|]. destruct (Z.lt_ge_cases (arg_predictions a) 0).
      * rewrite (init_negative a w run) in Hinit by done. discriminate.
      * split; [done|].
        destruct (init_draw a w run) as (items & Heq & Hall); [done..|].
        exists items. split_and!; [congruence..|done].
    + left. rewrite (init_no_draw a w run) in Hinit by done.
      split_and!; congruence.
  - rewrite init_no_run in Hinit by done. discriminate.
Qed.

(** The checkpoint path of an instance is fixed by the run directory. *)
Lemma init_model_path (a : Args) (w : World) (self : t) (w' : World) :
  __init__ a w = (Ok self, w') →
  ∃ run, wandb_run w = Some run
         ∧ model_path self = run_dir run +:+ "/bestmodel.pth".
Proof.
  intros (run & Hrun & [(_ & -> & _)|(_ & _ & items & -> & _)])%init_cases;
    by exists run.
Qed.

(** The sample set drawn at construction has as many items as indices
    were asked for. *)
Lemma drawn_items_length (a : Args) (w : World) (items : list Item) :
  0 ≤ arg_predictions a →
  Forall2 (λ i it, valid_ds (learners w (arg_learn a)) !! i = Some it)
    (Random.draw (seq 0 (length (valid_ds (learners w (arg_learn a)))))
       (Z.to_nat (draw_count a w)) (entropy w))
    items →
  Z.of_nat (length items) = draw_count a w.
Proof.
  intros Hpos Hall. apply Forall2_length in Hall. rewrite <- Hall.
  rewrite draw_length, length_seq. unfold draw_count. lia.
Qed.

End Construction.

Section ConstructionClaims.

Import WandbCallback.

(** C3, as stated, fails: with an active run, a negative number of
    predictions makes [random.sample] raise, and so the constructor. *)
Lemma init_with_run_can_raise :
  ¬ (∀ a w, is_Some (wandb_run w) → ∃ self w', __init__ a w = (Ok self, w')).
Proof.
  intros H.
  destruct (H Demo.negative_args Demo.world) as (self & w' & Heq).
  - by eexists.
  - vm_compute in Heq. discriminate Heq.
Qed.

(** C3, amended. Without an active run the constructor raises the
    "call wandb.init() first" [ValueError] and leaves the world as it
    is, so no run is created.  With an active run it returns an
    instance, and the run is the one there was, provided that no sample
    is to be drawn or the number of predictions is not negative; with a
    sample to draw and a negative number it raises. *)
Theorem init_requires_run (a : Args) (w : World) :
  (wandb_run w = None →
   __init__ a w
   = (Raise (ValueError "You must call wandb.init() before WandbCallback()"),
      w))
  ∧ (is_Some (wandb_run w) →
     needs_draw a = false ∨ 0 ≤ arg_predictions a →
     ∃ self w', __init__ a w = (Ok self, w') ∧ wandb_run w' = wandb_run w)
  ∧ (is_Some (wandb_run w) →
     needs_draw a = true → arg_predictions a < 0 →
     ∃ msg, __init__ a w = (Raise (ValueError msg), w)).
Proof.
  split_and!.
  - apply init_no_run.
  - intros [run Hrun] Hcond. destruct (needs_draw a) eqn:Hdraw.
    + destruct Hcond as [?|Hpos]; [done|].
      destruct (init_draw a w run Hrun Hdraw Hpos) as (items & Heq & _).
      eexists _, _. split; [exact Heq|done].
    + eexists _, _. split; [by apply init_no_draw|done].
  - intros [run Hrun] Hdraw Hneg. eexists.
    by apply (init_negative a w run).
Qed.

Example init_demo :
  __init__ (default_args 0) Demo.world
  = (Ok Demo.observer, Demo.world_constructed).
Proof. reflexivity. Qed.

Lemma init_requires_run_witness :
  __init__ (default_args 0) Demo.world_no_run
  = (Raise (ValueError "You must call wandb.init() before WandbCallback()"),
     Demo.world_no_run)
  ∧ (∃ self w', __init__ (default_args 0) Demo.world = (Ok self, w')
                ∧ wandb_run w' = wandb_run Demo.world)
  ∧ (∃ msg, __init__ Demo.negative_args Demo.world
            = (Raise (ValueError msg), Demo.world)).
Proof.
  split; [|split].
  - apply (init_requires_run (default_args 0) Demo.world_no_run).
    reflexivity.
  - apply (init_requires_run (default_args 0) Demo.world).
    + eexists. reflexivity.
    + right. simpl. discriminate.
  - apply (init_requires_run Demo.negative_args Demo.world).
    + eexists. reflexivity.
    + reflexivity.
    + reflexivity.
Defined.

Lemma on_train_begin_eq (self : t) (w : World) :
  on_train_begin self w
  = (Ok (set_super (Tracker.on_train_begin (super self)) self),
     if watch_called w then w
     else set_trace
            (trace w ++ [EWatch (model (learners w (learn self))) (log self)])
            (set_watch_called true w)).
Proof.
  unfold on_train_begin. mrun. by destruct (watch_called w).
Qed.

(** C2, as stated, fails: a fresh instance has [best = None], not an
    infinity. *)
Lemma init_best_not_infinite :
  ¬ (∀ a w self w',
       __init__ a w = (Ok self, w') →
       best self = Some (Tracker.initial_best (operator self))).
Proof.
  intros H.
  destruct (init_draw (default_args 0) Demo.world {| run_dir := "/run" |})
    as (items & Heq & _); [done..|].
  pose proof (H _ _ _ _ Heq) as Hbest. discriminate Hbest.
Qed.

(** C2, amended. The constructor leaves [best] unset ([None]); it is
    [on_train_begin] that sets it, to [+infinity] when the comparison is
    "min" and to [-infinity] when it is "max", whatever it was before. *)
Theorem best_set_by_train_begin :
  (∀ a w self w', __init__ a w = (Ok self, w') → best self = None)
  ∧ (∀ self w, ∃ self' w',
       on_train_begin self w = (Ok self', w')
       ∧ operator self' = operator self
       ∧ best self' = Some (match operator self with
                            | Tracker.Min => infinity
                            | Tracker.Max => neg_infinity
                            end)).
Proof.
  split.
  - intros a w self w'
      (run & _ & [(_ & -> & _)|(_ & _ & items & -> & _)])%init_cases;
      reflexivity.
  - intros self w. eexists _, _. split; [apply on_train_begin_eq|].
    split; [done|]. unfold best, operator. simpl. by destruct Tracker.operator.
Qed.

Lemma best_set_by_train_begin_witness : best Demo.observer = None.
Proof.
  apply (proj1 best_set_by_train_begin (default_args 0) Demo.world
           Demo.observer Demo.world_constructed).
  reflexivity.
Defined.

End ConstructionClaims.

(** ** Dictionaries built from pairs *)

Section Dict.

Context {V : Type}.
Implicit Types (ps : list (string * V)) (k : string) (v : V).

Lemma dict_of_snoc ps k v :
  dict_of (ps ++ [(k, v)]) = <[k := v]> (dict_of ps).
Proof. unfold dict_of. by rewrite foldl_snoc. Qed.

(** A key is bound exactly when some pair has it. *)
Lemma dict_of_is_Some ps k :
  is_Some (dict_of ps !! k) ↔ ∃ i v, ps !! i = Some (k, v).
Proof.
  induction ps as [|[k' v'] ps IH] using rev_ind.
  - unfold dict_of. simpl. rewrite lookup_empty. split.
    + by intros [? ?].
    + by intros (i & v & ?).
  - rewrite dict_of_snoc. destruct (decide (k' = k)) as [->|Hne].
    + rewrite lookup_insert_eq. split; [|by eauto]. intros _.
      exists (length ps), v'. by rewrite list_lookup_middle.
    + rewrite lookup_insert_ne, IH by done. split.
      * intros (i & v & Hi). exists i, v. by apply lookup_app_l_Some.
      * intros (i & v & Hi). apply lookup_app_Some in Hi as [Hi|[_ Hi]].
        { eauto. }
        destruct (i - length ps)%nat as [|n]; simpl in Hi; [congruence|].
        by rewrite lookup_nil in Hi.
Qed.

(** The value of a key is that of the last pair that has it. *)
Lemma dict_of_lookup_last ps k v (i : nat) :
  ps !! i = Some (k, v) →
  (∀ j v', (i < j)%nat → ps !! j ≠ Some (k, v')) →
  dict_of ps !! k = Some v.
Proof.
  revert i. induction ps as [|[k' v'] ps IH] using rev_ind; intros i Hi Hlast.
  - by rewrite lookup_nil in Hi.
  - rewrite dict_of_snoc. apply lookup_app_Some in Hi as [Hi|[Hge Hi]].
    + assert (k' ≠ k) as Hne.
      { intros ->. apply (Hlast (length ps) v').
        - by apply lookup_lt_Some in Hi.
        - by rewrite list_lookup_middle. }
      rewrite lookup_insert_ne by done. apply (IH i Hi).
      intros j v'' Hj Hps. apply (Hlast j v'' Hj).
      by apply lookup_app_l_Some.
    + destruct (i - length ps)%nat as [|n]; simpl in Hi.
      * injection Hi as -> ->. by rewrite lookup_insert_eq.
      * by rewrite lookup_nil in Hi.
Qed.

(** Every bound value comes from a pair. *)
Lemma dict_of_lookup_Some ps k v :
  dict_of ps !! k = Some v → ∃ i, ps !! i = Some (k, v).
Proof.
  induction ps as [|[k' v'] ps IH] using rev_ind.
  - unfold dict_of. simpl. by rewrite lookup_empty.
  - rewrite dict_of_snoc. destruct (decide (k' = k)) as [->|Hne].
    + rewrite lookup_insert_eq. intros [= ->].
      exists (length ps). by rewrite list_lookup_middle.
    + rewrite lookup_insert_ne by done. intros [i Hi]%IH.
      exists i. by apply lookup_app_l_Some.
Qed.

End Dict.

(** ** The metrics record *)

Section Logs.

Import WandbCallback.

Lemma logs_pairs_lookup (names : list string) (vals : list LogValue)
    (i : nat) (name : string) (v : LogValue) :
  slice_from_1 (zip names vals) !! i = Some (name, v)
  ↔ names !! S i = Some name ∧ vals !! S i = Some v.
Proof.
  unfold slice_from_1. rewrite lookup_drop, lookup_zip_with_Some. simpl.
  split.
  - intros (n & x & [= -> ->] & ? & ?). done.
  - intros [? ?]. by exists name, v.
Qed.

Lemma logs_is_Some (names : list string) (epoch : Z) (smooth_loss : float)
    (last_metrics : list float) (name : string) :
  is_Some (logs names epoch smooth_loss last_metrics !! name)
  ↔ ∃ i, (1 ≤ i < length (stats epoch smooth_loss last_metrics))%nat
         ∧ names !! i = Some name.
Proof.
  unfold logs. rewrite dict_of_is_Some. split.
  - intros (i & v & [Hn Hv]%logs_pairs_lookup). exists (S i).
    apply lookup_lt_Some in Hv. split; [lia|done].
  - intros ([|i] & [? Hlt] & Hn); [lia|].
    apply lookup_lt_is_Some_2 in Hlt as [v Hv].
    exists i, v. by apply logs_pairs_lookup.
Qed.

Lemma logs_lookup (names : list string) (epoch : Z) (smooth_loss : float)
    (last_metrics : list float) (i : nat) (name : string) (v : LogValue) :
  (1 ≤ i)%nat →
  names !! i = Some name →
  stats epoch smooth_loss last_metrics !! i = Some v →
  (∀ j, (i < j)%nat →
        is_Some (stats epoch smooth_loss last_metrics !! j) →
        names !! j ≠ Some name) →
  logs names epoch smooth_loss last_metrics !! name = Some v.
Proof.
  intros Hi Hn Hv Hlast. destruct i as [|i]; [lia|].
  unfold logs. apply (dict_of_lookup_last _ _ _ i).
  - by apply logs_pairs_lookup.
  - intros j v' Hj [Hn' Hv']%logs_pairs_lookup.
    apply (Hlast (S j)); [lia|by eauto|done].
Qed.

(** The record holds numbers only, never images. *)
Lemma logs_no_images (names : list string) (epoch : Z) (smooth_loss : float)
    (last_metrics : list float) (name : string) (imgs : list Image) :
  logs names epoch smooth_loss last_metrics !! name ≠ Some (VImages imgs).
Proof.
  intros [i [_ Hv]%logs_pairs_lookup]%dict_of_lookup_Some.
  unfold stats in Hv. simpl in Hv. destruct i as [|i]; [done|].
  simpl in Hv. rewrite list_lookup_fmap in Hv.
  by destruct (last_metrics !! i).
Qed.

End Logs.

(** ** The epoch hook, step by step *)

Section EpochEnd.

Import WandbCallback.

Lemma save_best_eq (self : t) (epoch : Z) (w : World) :
  save_best self epoch w
  = match monitored self w with
    | None => (Ok self, w)
    | Some current =>
        match best self with
        | None =>
            (Raise (TypeError
                      "'<' not supported between 'float' and 'NoneType'"),
             w)
        | Some b =>
            if Tracker.compare (operator self) current b
            then
              match faults w (model_path self) with
              | None =>
                  (Ok (set_best (Some current) self),
                   checkpointed self epoch current w)
              | Some fault =>
                  (Abort (IOError (fault_message fault))
                     (set_best (Some current) self),
                   write_failed self epoch current fault w)
              end
            else (Ok self, w)
        end
    end.
Proof.
  unfold save_best, Tracker.get_monitor_value, monitored, best, operator,
    learn, monitor.
  mrun. destruct (_ !! _) as [current|]; [|done].
  unfold Tracker.apply_operator. destruct (Tracker.best (super self)) as [b|];
    [|done].
  mrun. destruct (Tracker.compare _ current b); [|done].
  unfold with_self, Learn.save, checkpointed, write_failed, set_trace,
    set_files.
  mrun. destruct (faults w (model_path self)) as [[|partial]|]; simpl;
    try done.
  by rewrite <- app_assoc.
Qed.

Lemma on_epoch_end_eq (self : t) (epoch : Z) (smooth_loss : float)
    (last_metrics : list float) (w : World) :
  on_epoch_end self epoch smooth_loss last_metrics w
  = match (if save_model self then save_best self epoch w else (Ok self, w))
    with
    | (Ok self', w1) =>
        (Ok self', logged self' epoch smooth_loss last_metrics w1)
    | (Raise e, w1) => (Raise e, w1)
    | (Abort e self', w1) => (Abort e self', w1)
    end.
Proof.
  unfold on_epoch_end, log_epoch, logged, sample_events, metric_event. mrun.
  destruct (save_model self).
  - destruct (save_best self epoch w) as [[self'|e|e self'] w1]; [|done..].
    destruct (truthy_list (validation_data self')); simpl;
      unfold set_trace; simpl; by rewrite <- ?app_assoc.
  - destruct (truthy_list (validation_data self)); simpl;
      unfold set_trace; simpl; by rewrite <- ?app_assoc.
Qed.

Lemma written_sample_events (self : t) (w : World) :
  written (sample_events self w) = [].
Proof. unfold sample_events. by destruct truthy_list. Qed.

Lemma logged_trace (self : t) (epoch : Z) (smooth_loss : float)
    (last_metrics : list float) (w : World) :
  trace (logged self epoch smooth_loss last_metrics w)
  = trace w ++ sample_events self w
    ++ [metric_event self epoch smooth_loss last_metrics w].
Proof. reflexivity. Qed.

End EpochEnd.

Section EpochEndClaims.

Import WandbCallback.

Lemma is_better_spec (self : t) (w : World) :
  is_better self w = true
  ↔ ∃ current b,
      monitored self w = Some current
      ∧ best self = Some b
      ∧ match operator self with
        | Tracker.Min => PrimFloat.ltb current b
        | Tracker.Max => PrimFloat.ltb b current
        end = true.
Proof.
  unfold is_better.
  destruct (monitored self w) as [current|], (best self) as [b|]; split;
    try done.
  - intros H. by exists current, b.
  - by intros (c & b' & [= <-] & [= <-] & H).
  - by intros (c & b' & _ & [=] & _).
  - by intros (c & b' & [=] & _).
  - by intros (c & b' & [=] & _).
Qed.

(** C1. With [save_model] set, for every call of [on_epoch_end]: the
    monitored value counts as better exactly when it is there, [best]
    holds a value and the monitored value is strictly less than it for
    "min", strictly greater for "max".  If it is better, the notice is
    printed, [best] is set to the monitored value, with the path
    unchanged, and the current parameters are written to [model_path]:
    when the file system lets the write through, the call returns and
    the file holds the parameters, written once; when it does not, the
    call ends with an [IOError], with [best] already set, and no write is
    completed.  If it is not better, the files stay as they are, no
    checkpoint is written and [best] is not updated.  An absent value is
    not an error, and a call with [best] set, as it is from
    [on_train_begin] on, returns whenever the write can go through. *)
Theorem checkpoint_iff_better (self : t) (epoch : Z) (smooth_loss : float)
    (last_metrics : list float) (w : World) :
  save_model self = true →
  let r := on_epoch_end self epoch smooth_loss last_metrics w in
  let m := model (learners w (learn self)) in
  (is_better self w = true
   ↔ ∃ current b,
       monitored self w = Some current
       ∧ best self = Some b
       ∧ match operator self with
         | Tracker.Min => PrimFloat.ltb current b
         | Tracker.Max => PrimFloat.ltb b current
         end = true)
  ∧ (if is_better self w then
       (∃ current,
          monitored self w = Some current
          ∧ EPrint (BetterModel epoch (monitor self) current)
            ∈ emitted w r.2)
       ∧ match faults w (model_path self) with
         | None =>
             (∃ self', r.1 = Ok self'
                       ∧ best self' = monitored self w
                       ∧ model_path self' = model_path self)
             ∧ files r.2 = <[model_path self := m]> (files w)
             ∧ written (emitted w r.2) = [(model_path self, m)]
         | Some fault =>
             (∃ msg self', r.1 = Abort (IOError msg) self'
                           ∧ best self' = monitored self w
                           ∧ model_path self' = model_path self)
             ∧ files r.2
               = match fault with
                 | OpenFails => files w
                 | SaveFails partial =>
                     <[model_path self := partial]> (files w)
                 end
             ∧ written (emitted w r.2) = []
         end
     else
       files r.2 = files w
       ∧ written (emitted w r.2) = []
       ∧ (∀ self', r.1 = Ok self' → self' = self)
       ∧ ∀ e self', r.1 ≠ Abort e self')
  ∧ (monitored self w = None → r.1 = Ok self)
  ∧ (is_Some (best self) → faults w (model_path self) = None →
     is_ok r.1 = true).
Proof.
  intros Hsave r m. split; [apply is_better_spec|].
  assert (written (emitted w (logged self epoch smooth_loss last_metrics w))
          = []) as Hquiet.
  { erewrite emitted_app by apply logged_trace.
    by rewrite written_app, written_sample_events. }
  unfold r, is_better. rewrite on_epoch_end_eq, Hsave, save_best_eq.
  destruct (monitored self w) as [current|] eqn:Hcur.
  - destruct (best self) as [b|] eqn:Hbest.
    + destruct (Tracker.compare (operator self) current b) eqn:Hcmp; simpl.
      * destruct (faults w (model_path self)) as [fault|] eqn:Hfault; simpl.
        -- split_and!; try done.
           ++ exists current. split; [done|].
              erewrite emitted_app by reflexivity. left.
           ++ by eexists _, _.
           ++ by destruct fault.
           ++ by erewrite emitted_app by reflexivity.
        -- split_and!; try done.
           ++ exists current. split; [done|].
              erewrite emitted_app; [|rewrite logged_trace; simpl;
                by rewrite <- app_assoc].
              left.
           ++ by eexists.
           ++ erewrite emitted_app; [|rewrite logged_trace; simpl;
                by rewrite <- app_assoc].
              simpl. by rewrite written_app, written_sample_events.
      * split_and!; try done. by intros self' [= <-].
    + simpl. split_and!; try done. unfold emitted. by rewrite drop_all.
  - simpl. split_and!; try done. by intros self' [= <-].
Qed.

Lemma checkpoint_iff_better_witness :
  (∃ self' w',
     on_epoch_end Demo.tracking 1 0.25 [0.3; 0.9]%float
       Demo.world_constructed
     = (Ok self', w')
     ∧ best self' = Some 0.5%float
     ∧ files w' = {[ "/run/bestmodel.pth" := [1.5; -0.5]%float ]})
  ∧ is_ok (on_epoch_end Demo.tracking 1 0.25 [0.3; 0.9]%float
             Demo.world_constructed).1
    = true.
Proof.
  destruct (checkpoint_iff_better Demo.tracking 1 0.25%float
              [0.3; 0.9]%float Demo.world_constructed eq_refl)
    as (_ & Hbetter & _ & Hreturns).
  split.
  - change (is_better Demo.tracking Demo.world_constructed) with true
      in Hbetter.
    change (faults Demo.world_constructed (model_path Demo.tracking))
      with (@None Fault) in Hbetter.
    destruct Hbetter as (_ & (self' & Heq & Hbest & _) & Hfiles & _).
    destruct (on_epoch_end Demo.tracking 1 0.25%float [0.3; 0.9]%float
                Demo.world_constructed) as [r w'].
    simpl in Heq, Hfiles. exists self', w'.
    split; [by rewrite Heq|]. split; [exact Hbest|exact Hfiles].
  - apply Hreturns; [eexists; reflexivity|reflexivity].
Defined.

(** C8. With [save_model] unset, an epoch returns the instance as it
    was, so with the same [best], leaves the files as they are and writes
    no checkpoint. *)
Theorem no_checkpoint_when_disabled (self : t) (epoch : Z)
    (smooth_loss : float) (last_metrics : list float) (w : World) :
  save_model self = false →
  ∃ self' w',
    on_epoch_end self epoch smooth_loss last_metrics w = (Ok self', w')
    ∧ self' = self
    ∧ best self' = best self
    ∧ files w' = files w
    ∧ written (emitted w w') = [].
Proof.
  intros Hsave. eexists _, _. rewrite on_epoch_end_eq, Hsave.
  split_and!; [done..|].
  erewrite emitted_app by apply logged_trace.
  by rewrite written_app, written_sample_events.
Qed.

Lemma no_checkpoint_when_disabled_witness :
  ∃ self' w',
    on_epoch_end Demo.observer 1 0.25 [0.3; 0.9]%float Demo.world_constructed
    = (Ok self', w')
    ∧ self' = Demo.observer
    ∧ best self' = best Demo.observer
    ∧ files w' = files Demo.world_constructed
    ∧ written (emitted Demo.world_constructed w') = [].
Proof.
  apply (no_checkpoint_when_disabled Demo.observer 1 0.25%float
           [0.3; 0.9]%float Demo.world_constructed).
  reflexivity.
Defined.

(** With [best] still unset, which is how the constructor leaves it, a
    monitored value cannot be compared: the epoch raises. *)
Lemma on_epoch_end_before_train_begin (self : t) (epoch : Z)
    (smooth_loss : float) (last_metrics : list float) (w : World)
    (current : float) :
  save_model self = true →
  best self = None →
  monitored self w = Some current →
  ∃ msg,
    on_epoch_end self epoch smooth_loss last_metrics w
    = (Raise (TypeError msg), w).
Proof.
  intros Hsave Hbest Hcur. eexists.
  by rewrite on_epoch_end_eq, Hsave, save_best_eq, Hcur, Hbest.
Qed.

(** The metric sequence 5.0, 3.0, 4.0, 2.0: "min" saves after the
    epochs 1, 2 and 4 and ends with the snapshot of 2.0, which the end of
    training loads back; "max" saves after epoch 1 only. *)
Example four_epochs_min :
  let s := Process.run (Demo.four_epochs Tracker.Min) Demo.start in
  written (trace (Process.world s))
  = [("/run/bestmodel.pth", [5.0]%float); ("/run/bestmodel.pth", [3.0]%float);
     ("/run/bestmodel.pth", [2.0]%float)]
  ∧ files (Process.world s) !! "/run/bestmodel.pth" = Some [2.0]%float
  ∧ (best <$> Process.instances s) = [Some 2.0%float].
Proof. by vm_compute. Qed.

Example four_epochs_max :
  let s := Process.run (Demo.four_epochs Tracker.Max) Demo.start in
  written (trace (Process.world s)) = [("/run/bestmodel.pth", [5.0]%float)]
  ∧ files (Process.world s) !! "/run/bestmodel.pth" = Some [5.0]%float
  ∧ (best <$> Process.instances s) = [Some 5.0%float].
Proof. by vm_compute. Qed.

(** In a run directory that cannot be written, a better epoch prints its
    notice, sets [best] and ends there: nothing is written or logged, and
    the instance keeps the new [best]. *)
Example epoch_in_read_only_world :
  let s := {| Process.world := Cases.world_read_only;
              Process.instances := [Demo.tracking] |} in
  let s' := Process.step s (Process.EpochEnd 0 1 0.25 [0.3; 0.9]%float) in
  (on_epoch_end Demo.tracking 1 0.25 [0.3; 0.9]%float
     Cases.world_read_only).1
  = Abort (IOError "cannot open the file for writing")
      (set_best (Some 0.5%float) Demo.tracking)
  ∧ (best <$> Process.instances s') = [Some 0.5%float]
  ∧ files (Process.world s') !! "/run/bestmodel.pth" = None
  ∧ trace (Process.world s') = [EPrint (BetterModel 1 "val_loss" 0.5)].
Proof. by vm_compute. Qed.

End EpochEndClaims.

Section LoggingClaims.

Import WandbCallback.

(** C4, as stated, fails: a name that has no value at its position is
    left out.  With fast.ai's trailing "time" column the record has no
    "time" entry. *)
Lemma logs_drops_unpaired_names :
  ¬ (∀ names epoch smooth_loss last_metrics name,
       name ∈ slice_from_1 names →
       is_Some (logs names epoch smooth_loss last_metrics !! name)).
Proof.
  intros H.
  destruct (H Demo.timed_names 2 0.25%float [0.3; 0.9]%float "time")
    as [v Hv].
  - unfold Demo.timed_names, slice_from_1. simpl. set_solver.
  - vm_compute in Hv. discriminate Hv.
Qed.

(** The events of an epoch that returns: the checkpoint step, then the
    samples, then the metrics. *)
Lemma on_epoch_end_last (self : t) (epoch : Z) (smooth_loss : float)
    (last_metrics : list float) (w : World) :
  match on_epoch_end self epoch smooth_loss last_metrics w with
  | (Ok _, w') =>
      last (trace w')
      = Some (ELog (logs (recorder_names (learners w (learn self)))
                      epoch smooth_loss last_metrics) true)
  | (Raise _, w') => w' = w
  | (Abort _ _, w') => ∀ fields commit, ELog fields commit ∉ emitted w w'
  end.
Proof.
  rewrite on_epoch_end_eq. destruct (save_model self).
  - rewrite save_best_eq. destruct (monitored self w) as [current|].
    + destruct (best self) as [b|]; [|done].
      destruct (Tracker.compare (operator self) current b).
      * destruct (faults w (model_path self)) as [fault|].
        -- intros fields commit. erewrite emitted_app by reflexivity.
           by intros [=]%list_elem_of_singleton.
        -- rewrite logged_trace, app_assoc. apply last_snoc.
      * rewrite logged_trace, app_assoc. apply last_snoc.
    + rewrite logged_trace, app_assoc. apply last_snoc.
  - rewrite logged_trace, app_assoc. apply last_snoc.
Qed.

(** C4, amended. The record logged last by an epoch is [logs] of the
    recorder's names; an epoch that ends with an exception logs
    nothing.  Its keys are the names at the positions from 1 on
    that have a value at the same position of [[epoch, smooth_loss] +
    last_metrics]; a name bound to such a position has the value at it,
    unless the name occurs again at a later paired position.  For the
    names epoch, train_loss, valid_loss, accuracy, metrics 0.3 and 0.9,
    epoch 2 and smooth loss 0.25 the record is train_loss: 0.25,
    valid_loss: 0.3, accuracy: 0.9. *)
Theorem logs_spec (names : list string) (epoch : Z) (smooth_loss : float)
    (last_metrics : list float) :
  let vals := stats epoch smooth_loss last_metrics in
  let record := logs names epoch smooth_loss last_metrics in
  (∀ self w,
     recorder_names (learners w (learn self)) = names →
     match on_epoch_end self epoch smooth_loss last_metrics w with
     | (Ok _, w') => last (trace w') = Some (ELog record true)
     | (Raise _, w') => w' = w
     | (Abort _ _, w') => ∀ fields commit, ELog fields commit ∉ emitted w w'
     end)
  ∧ (∀ name,
       is_Some (record !! name)
       ↔ ∃ i, (1 ≤ i < length vals)%nat ∧ names !! i = Some name)
  ∧ (∀ i name v,
       (1 ≤ i)%nat →
       names !! i = Some name →
       vals !! i = Some v →
       (∀ j, (i < j)%nat → is_Some (vals !! j) → names !! j ≠ Some name) →
       record !! name = Some v)
  ∧ logs ["epoch"; "train_loss"; "valid_loss"; "accuracy"] 2 0.25
         [0.3; 0.9]%float
    = {[ "train_loss" := VFloat 0.25; "valid_loss" := VFloat 0.3;
         "accuracy" := VFloat 0.9 ]}.
Proof.
  intros vals record. split_and!.
  - intros self w <-. apply on_epoch_end_last.
  - apply logs_is_Some.
  - apply logs_lookup.
  - by vm_compute.
Qed.

Lemma logs_spec_witness :
  logs Demo.timed_names 2 0.25 [0.3; 0.9]%float !! "train_loss"
  = Some (VFloat 0.25)
  ∧ last (trace (on_epoch_end Demo.observer 2 0.25 [0.3; 0.9]%float
                   Demo.world_constructed).2)
    = Some (ELog (logs (recorder_names Demo.learner) 2 0.25
                    [0.3; 0.9]%float) true).
Proof.
  destruct (logs_spec Demo.timed_names 2 0.25%float [0.3; 0.9]%float)
    as (_ & _ & Hlookup & _).
  destruct (logs_spec (recorder_names Demo.learner) 2 0.25%float
              [0.3; 0.9]%float)
    as (Hlast & _).
  split.
  - apply (Hlookup 1%nat "train_loss" (VFloat 0.25));
      [repeat constructor|reflexivity|reflexivity|].
    intros j Hj Hv.
    do 5 (destruct j as [|j]; [first [lia|discriminate]|]).
    discriminate.
  - apply (Hlast Demo.observer Demo.world_constructed eq_refl).
Defined.

End LoggingClaims.

Section SampleClaims.

Import WandbCallback.

Lemma logs_samples_metric_event (self : t) (epoch : Z) (smooth_loss : float)
    (last_metrics : list float) (w : World) :
  logs_samples (metric_event self epoch smooth_loss last_metrics w) = false.
Proof.
  unfold metric_event, logs_samples.
  destruct (logs _ _ _ _ !! _) as [[z|f|imgs]|] eqn:E; try done.
  by apply logs_no_images in E.
Qed.

Lemma existsb_sample_events (self : t) (w : World) :
  existsb logs_samples (sample_events self w)
  = truthy_list (validation_data self).
Proof.
  unfold sample_events. destruct truthy_list; [|done].
  simpl. by rewrite lookup_singleton_eq.
Qed.

Lemma existsb_logged (self : t) (epoch : Z) (smooth_loss : float)
    (last_metrics : list float) (w : World) :
  existsb logs_samples
    (sample_events self w
     ++ [metric_event self epoch smooth_loss last_metrics w])
  = truthy_list (validation_data self).
Proof.
  rewrite existsb_app, existsb_sample_events. cbn [existsb].
  by rewrite logs_samples_metric_event, !orb_false_r.
Qed.

(** What an epoch adds to the trace. *)
Lemma on_epoch_end_emitted (self : t) (epoch : Z) (smooth_loss : float)
    (last_metrics : list float) (w : World) :
  let r := on_epoch_end self epoch smooth_loss last_metrics w in
  existsb logs_samples (emitted w r.2)
  = is_ok r.1 && truthy_list (validation_data self).
Proof.
  simpl. rewrite on_epoch_end_eq. destruct (save_model self).
  - rewrite save_best_eq. destruct (monitored self w) as [current|].
    + destruct (best self) as [b|].
      * destruct (Tracker.compare (operator self) current b); simpl.
        -- destruct (faults w (model_path self)) as [fault|]; simpl.
           ++ by erewrite emitted_app by reflexivity.
           ++ erewrite emitted_app; [|rewrite logged_trace; simpl;
                by rewrite <- app_assoc].
              cbn [app existsb logs_samples orb]. by rewrite existsb_logged.
        -- erewrite emitted_app by apply logged_trace. apply existsb_logged.
      * simpl. unfold emitted. by rewrite drop_all.
    + simpl. erewrite emitted_app by apply logged_trace. apply existsb_logged.
  - simpl. erewrite emitted_app by apply logged_trace. apply existsb_logged.
Qed.

(** C10, as stated, fails: with [data_type] set, an explicit empty
    [validation_data] is replaced by a drawn sample, and the epoch logs
    its predictions. *)
Lemma empty_validation_data_still_logs :
  ¬ (∀ a w self w' epoch smooth_loss last_metrics w1,
       arg_validation_data a = Some [] →
       __init__ a w = (Ok self, w') →
       existsb logs_samples
         (emitted w1 (on_epoch_end self epoch smooth_loss last_metrics w1).2)
       = false).
Proof.
  intros H.
  specialize (H Demo.empty_sample_args Demo.world Demo.observer
                Demo.world_constructed 1 0.25%float [0.3; 0.9]%float
                Demo.world_constructed eq_refl eq_refl).
  rewrite on_epoch_end_emitted in H. discriminate H.
Qed.

(** C10, amended. An epoch logs prediction samples exactly when it
    returns and the stored sample set is not empty (an epoch that raises
    in the checkpoint step logs nothing).  The stored set of a fresh
    instance is the given [validation_data] when no sample is drawn,
    that is when [data_type] is unset or [validation_data] is not empty;
    otherwise, also for an explicit empty [validation_data], it is the
    drawn sample, which is empty only when the smaller of [predictions]
    and the size of the validation set is 0. *)
Theorem samples_logged_iff_stored :
  (∀ self epoch smooth_loss last_metrics w,
     let r := on_epoch_end self epoch smooth_loss last_metrics w in
     existsb logs_samples (emitted w r.2)
     = is_ok r.1 && truthy_list (validation_data self))
  ∧ (∀ a w self w',
       __init__ a w = (Ok self, w') →
       truthy_list (validation_data self)
       = if truthy_str (arg_data_type a)
            && negb (truthy_list (arg_validation_data a))
         then bool_decide (0 < draw_count a w)
         else truthy_list (arg_validation_data a)).
Proof.
  split; [apply on_epoch_end_emitted|].
  intros a w self w' (run & _ & Hcases)%init_cases.
  fold (needs_draw a).
  destruct Hcases as [(-> & -> & _)|(-> & Hpos & items & -> & _ & Hall)].
  - done.
  - apply (drawn_items_length a w items Hpos) in Hall. simpl.
    destruct items; simpl in Hall; case_bool_decide; lia || done.
Qed.

Lemma samples_logged_iff_stored_witness :
  truthy_list (validation_data Demo.observer) = true.
Proof.
  apply (proj2 samples_logged_iff_stored Demo.empty_sample_args Demo.world
           Demo.observer Demo.world_constructed).
  reflexivity.
Defined.

End SampleClaims.

(** ** The end of training *)

Section TrainEnd.

Import WandbCallback.

Lemma on_train_end_eq (self : t) (w : World) :
  on_train_end self w
  = (Ok tt,
     if save_model self then
       match files w !! model_path self with
       | Some snapshot =>
           set_trace
             (trace w ++ [ELoad (model_path self) false;
                          EPrint (LoadedBest (model_path self))])
             (set_learners
                (<[learn self := set_model snapshot (learners w (learn self))]>
                   (learners w))
                w)
       | None => w
       end
     else w).
Proof.
  unfold on_train_end. destruct (save_model self); [|done]. mrun.
  destruct (files w !! model_path self) as [snapshot|]; [|done].
  unfold Learn.load, set_trace, set_learners. mrun.
  by rewrite <- app_assoc.
Qed.



End TrainEnd.

(** ** The class attribute and the watch request *)

Section Watch.

Import WandbCallback Process.

Lemma init_world (a : Args) (w : World) :
  (__init__ a w).2 = w ∨ ∃ e, (__init__ a w).2 = set_entropy e w.
Proof.
  destruct (wandb_run w) as [run|] eqn:Hrun.
  - destruct (needs_draw a) eqn:Hdraw.
    + destruct (Z.lt_ge_cases (arg_predictions a) 0).
      * left. by rewrite (init_negative a w run).
      * right. destruct (init_draw a w run) as (items & -> & _); [done..|].
        by eexists.
    + left. by rewrite (init_no_draw a w run).
  - left. by rewrite init_no_run.
Qed.

Lemma init_silent (a : Args) (w : World) : silent w (__init__ a w).2.
Proof. by destruct (init_world a w) as [->|[e ->]]. Qed.

Lemma logged_silent (self : t) (epoch : Z) (smooth_loss : float)
    (last_metrics : list float) (w : World) :
  silent w (logged self epoch smooth_loss last_metrics w).
Proof.
  split; [done|]. rewrite logged_trace, !watch_requests_app.
  unfold sample_events. destruct truthy_list; simpl; lia.
Qed.

Lemma on_epoch_end_silent (self : t) (epoch : Z) (smooth_loss : float)
    (last_metrics : list float) (w : World) :
  silent w (on_epoch_end self epoch smooth_loss last_metrics w).2.
Proof.
  rewrite on_epoch_end_eq. destruct (save_model self).
  - rewrite save_best_eq. destruct (monitored self w) as [current|].
    + destruct (best self) as [b|]; [|done].
      destruct (Tracker.compare (operator self) current b).
      * destruct (faults w (model_path self)) as [fault|].
        -- split; simpl; [by destruct fault|].
           rewrite watch_requests_app. destruct fault; simpl; lia.
        -- destruct (logged_silent (set_best (Some current) self) epoch
                       smooth_loss last_metrics
                       (checkpointed self epoch current w)) as [Hc Hr].
           split; simpl in *; [done|]. rewrite Hr, watch_requests_app.
           simpl. lia.
      * apply logged_silent.
    + apply logged_silent.
  - apply logged_silent.
Qed.

Lemma on_train_end_silent (self : t) (w : World) :
  silent w (on_train_end self w).2.
Proof.
  rewrite on_train_end_eq. simpl. destruct (save_model self); [|done].
  destruct (files w !! model_path self); [|done].
  split; [done|]. simpl. rewrite watch_requests_app. simpl. lia.
Qed.

(** The world after [store] is the world of the call. *)
Lemma store_world {A} (s : State) (r : result A * World)
    (put : A → list WandbCallback.t) :
  world (store s r put) = r.2.
Proof. by destruct r as [[a|e|e a] w']. Qed.

(** The world after a construction is the world of the call. *)
Lemma construct_world (s : State) (a : Args) :
  world match __init__ a (world s) with
        | (Ok self, w') =>
            {| world := w'; instances := instances s ++ [self] |}
        | (Raise _, w') | (Abort _ _, w') =>
            {| world := w'; instances := instances s |}
        end
  = (__init__ a (world s)).2.
Proof. by destruct (__init__ a (world s)) as [[self|e|e self] w']. Qed.

(** Once the class attribute is set, no call asks for an inspection or
    unsets it. *)
Lemma step_after_watch (s : State) (op : Op) :
  watch_called (world s) = true →
  silent (world s) (world (step s op)).
Proof.
  intros Hw. destruct op as [a|i|i epoch sl lm|i|ref l]; simpl.
  - rewrite construct_world. apply init_silent.
  - destruct (instances s !! i) as [self|]; [|done].
    rewrite store_world, on_train_begin_eq. simpl. by rewrite Hw.
  - destruct (instances s !! i) as [self|]; [|done].
    rewrite store_world. apply on_epoch_end_silent.
  - destruct (instances s !! i) as [self|]; [|done].
    rewrite store_world. apply on_train_end_silent.
  - done.
Qed.

(** While it is unset, a call either leaves it so or sets it and asks
    once. *)
Lemma step_before_watch (s : State) (op : Op) :
  watch_called (world s) = false →
  silent (world s) (world (step s op))
  ∨ (watch_called (world (step s op)) = true
     ∧ watch_requests (trace (world (step s op)))
       = S (watch_requests (trace (world s)))).
Proof.
  intros Hw. destruct op as [a|i|i epoch sl lm|i|ref l]; simpl.
  - left. rewrite construct_world. apply init_silent.
  - destruct (instances s !! i) as [self|]; [|by left].
    right. rewrite store_world, on_train_begin_eq. simpl. rewrite Hw.
    split; [done|]. simpl. rewrite watch_requests_app. simpl. lia.
  - destruct (instances s !! i) as [self|]; [|by left].
    left. rewrite store_world. apply on_epoch_end_silent.
  - destruct (instances s !! i) as [self|]; [|by left].
    left. rewrite store_world. apply on_train_end_silent.
  - by left.
Qed.

Lemma run_after_watch (ops : list Op) (s : State) :
  watch_called (world s) = true →
  silent (world s) (world (run ops s)).
Proof.
  revert s. induction ops as [|op ops IH]; intros s Hw; [done|].
  destruct (step_after_watch s op Hw) as [Hc Hr].
  destruct (IH (step s op)) as [Hc' Hr']; [congruence|].
  split; simpl; congruence.
Qed.

Lemma run_watch_requests (ops : list Op) (s : State) :
  watch_called (world s) = false →
  (watch_requests (trace (world (run ops s)))
   ≤ S (watch_requests (trace (world s))))%nat.
Proof.
  revert s. induction ops as [|op ops IH]; intros s Hw; [simpl; lia|].
  destruct (step_before_watch s op Hw) as [[Hc Hr]|[Hc Hr]].
  - simpl. rewrite <- Hr. apply IH. congruence.
  - destruct (run_after_watch ops (step s op) Hc) as [_ Hr'].
    simpl. rewrite Hr', Hr. lia.
Qed.

(** C5. [on_train_begin] with the class attribute unset sets it and
    asks for exactly one inspection, of the model of its learner; with
    the attribute set it leaves the world as it is.  Once the attribute
    is set, whatever is constructed or called later, by any instance, it
    stays set and no inspection is asked for; so a process, which starts
    with the attribute unset and nothing asked, asks at most once. *)
Theorem watch_at_most_once :
  (∀ self w,
     watch_called w = false →
     ∃ self' w',
       on_train_begin self w = (Ok self', w')
       ∧ watch_called w' = true
       ∧ emitted w w' = [EWatch (model (learners w (learn self))) (log self)])
  ∧ (∀ self w,
       watch_called w = true →
       ∃ self', on_train_begin self w = (Ok self', w))
  ∧ (∀ ops s,
       watch_called (world s) = true →
       watch_called (world (run ops s)) = true
       ∧ watch_requests (trace (world (run ops s)))
         = watch_requests (trace (world s)))
  ∧ (∀ ops s,
       initial s →
       (watch_requests (trace (world (run ops s))) ≤ 1)%nat).
Proof.
  split_and!.
  - intros self w Hw. eexists _, _. rewrite on_train_begin_eq, Hw.
    split; [done|]. split; [done|]. by apply emitted_app.
  - intros self w Hw. eexists. by rewrite on_train_begin_eq, Hw.
  - intros ops s Hw. destruct (run_after_watch ops s Hw) as [Hc Hr].
    split; congruence.
  - intros ops s (Hw & Ht & _).
    pose proof (run_watch_requests ops s Hw) as H. by rewrite Ht in H.
Qed.

Lemma watch_at_most_once_witness :
  (watch_requests
     (trace (world (run Demo.two_observers Demo.start))) ≤ 1)%nat
  ∧ ∃ self' w',
      on_train_begin Demo.observer Demo.world_constructed = (Ok self', w')
      ∧ watch_called w' = true.
Proof.
  destruct watch_at_most_once as (Hfirst & _ & _ & Hrun). split.
  - apply (Hrun Demo.two_observers Demo.start). repeat split.
  - destruct (Hfirst Demo.observer Demo.world_constructed eq_refl)
      as (self' & w' & Heq & Hw & _).
    exists self', w'. split; [exact Heq|exact Hw].
Defined.

(** Two observers constructed and run in sequence: one request overall,
    made by the first. *)
Example two_observers_one_request :
  watch_requests (trace (world (run Demo.two_observers Demo.start))) = 1%nat
  ∧ watch_requests
      (trace (world (run (take 2 Demo.two_observers) Demo.start))) = 1%nat.
Proof. by vm_compute. Qed.

End Watch.

(** ** Every sample is as likely as any other *)

Section Uniform.

Import Random.

Lemma draw_canonical_cons (pool : list nat) (k r : nat) (ent : list nat) :
  (r < length pool)%nat →
  draw pool (S k) (r :: ent)
  = nth r pool 0%nat :: draw (delete r pool) k ent.
Proof.
  intros Hr. destruct pool as [|x pool]; [simpl in Hr; lia|].
  cbn [draw hd tl]. by rewrite Nat.mod_small.
Qed.

(** Every selection of pairwise different members of the pool is drawn
    from some canonical state. *)
Lemma draw_complete (l pool : list nat) :
  NoDup pool → NoDup l → (∀ x, x ∈ l → x ∈ pool) →
  ∃ ent, canonical (length pool) (length l) ent
         ∧ draw pool (length l) ent = l.
Proof.
  revert pool. induction l as [|x l IH]; intros pool Hpool Hl Hsub.
  - exists []. split; [done|]. by destruct pool.
  - apply NoDup_cons in Hl as [Hx Hl].
    destruct (list_elem_of_lookup_1 pool x) as [j Hj]; [apply Hsub; left|].
    pose proof (lookup_lt_Some _ _ _ Hj) as Hlt.
    pose proof (delete_Permutation _ _ _ Hj) as Hperm.
    destruct (IH (delete j pool)) as (ent & Hcan & Hdraw).
    + rewrite Hperm in Hpool. by apply NoDup_cons in Hpool as [_ ?].
    + done.
    + intros y Hy. assert (y ∈ x :: delete j pool) as Hin.
      { rewrite <- Hperm. apply Hsub. by right. }
      apply elem_of_cons in Hin as [->|Hin]; done.
    + exists (j :: ent). split.
      * split; [done|]. rewrite length_delete in Hcan by eauto. done.
      * cbn [length]. rewrite draw_canonical_cons by done.
        by rewrite (nth_lookup_Some _ _ _ _ Hj), Hdraw.
Qed.

(** Two canonical states that draw the same sample are the same. *)
Lemma draw_injective (k : nat) (pool e1 e2 : list nat) :
  NoDup pool →
  canonical (length pool) k e1 → canonical (length pool) k e2 →
  draw pool k e1 = draw pool k e2 → e1 = e2.
Proof.
  revert pool e1 e2. induction k as [|k IH]; intros pool e1 e2 Hpool H1 H2 Heq.
  - destruct e1, e2; done.
  - destruct e1 as [|r1 e1], e2 as [|r2 e2]; try done.
    destruct H1 as [Hr1 H1], H2 as [Hr2 H2].
    rewrite !draw_canonical_cons in Heq by done.
    injection Heq as Hnth Hrest.
    destruct (lookup_lt_is_Some_2 pool r1 Hr1) as [x1 Hx1].
    destruct (lookup_lt_is_Some_2 pool r2 Hr2) as [x2 Hx2].
    rewrite (nth_lookup_Some _ _ _ _ Hx1), (nth_lookup_Some _ _ _ _ Hx2)
      in Hnth.
    subst x2. assert (r1 = r2) as <- by by eapply NoDup_lookup.
    f_equal. apply (IH (delete r1 pool)).
    + rewrite (delete_Permutation _ _ _ Hx1) in Hpool.
      by apply NoDup_cons in Hpool as [_ ?].
    + rewrite length_delete by eauto. done.
    + rewrite length_delete by eauto. done.
    + done.
Qed.

(** The samples of [k] indices below [n] correspond one to one to the
    canonical random states. *)
Lemma sample_uniform (n k : nat) (l : list nat) :
  length l = k → NoDup l → (∀ i, i ∈ l → (i < n)%nat) →
  ∃ ent,
    (canonical n k ent ∧ draw (seq 0 n) k ent = l)
    ∧ ∀ ent', canonical n k ent' ∧ draw (seq 0 n) k ent' = l → ent' = ent.
Proof.
  intros <- Hl Hlt.
  destruct (draw_complete l (seq 0 n)) as (ent & Hcan & Hdraw).
  - apply NoDup_seq.
  - done.
  - intros i Hi. apply elem_of_seq. specialize (Hlt i Hi). lia.
  - rewrite length_seq in Hcan. exists ent. split; [done|].
    intros ent' [Hcan' Hdraw'].
    apply (draw_injective (length l) (seq 0 n)).
    + apply NoDup_seq.
    + by rewrite length_seq.
    + by rewrite length_seq.
    + congruence.
Qed.

End Uniform.

(** ** The sample set through the life of an observer *)

Section SampleSet.

Import WandbCallback Process.

Lemma on_epoch_end_keeps_sample (self : t) (epoch : Z) (smooth_loss : float)
    (last_metrics : list float) (w : World) :
  let r := on_epoch_end self epoch smooth_loss last_metrics w in
  entropy r.2 = entropy w
  ∧ ∀ self', r.1 = Ok self' ∨ (∃ e, r.1 = Abort e self') →
             validation_data self' = validation_data self.
Proof.
  simpl. rewrite on_epoch_end_eq. destruct (save_model self).
  - rewrite save_best_eq. destruct (monitored self w) as [current|].
    + destruct (best self) as [b|];
        [|split; [done|]; by intros self' [[= <-]|[e [=]]]].
      destruct (Tracker.compare (operator self) current b).
      * destruct (faults w (model_path self)) as [fault|].
        -- split; [by destruct fault|].
           by intros self' [[=]|[e [= _ <-]]].
        -- split; [done|]. by intros self' [[= <-]|[e [=]]].
      * split; [done|]. by intros self' [[= <-]|[e [=]]].
    + split; [done|]. by intros self' [[= <-]|[e [=]]].
  - split; [done|]. by intros self' [[= <-]|[e [=]]].
Qed.

Lemma on_train_end_entropy (self : t) (w : World) :
  entropy (on_train_end self w).2 = entropy w.
Proof.
  rewrite on_train_end_eq. simpl. destruct (save_model self); [|done].
  by destruct (files w !! model_path self).
Qed.

(** A step keeps every instance there is, with its sample set. *)
Lemma step_keeps_sample (s : State) (op : Op) (i : nat) (self : t) :
  instances s !! i = Some self →
  ∃ self', instances (step s op) !! i = Some self'
           ∧ validation_data self' = validation_data self.
Proof.
  intros Hi. pose proof (lookup_lt_Some _ _ _ Hi) as Hlt.
  destruct op as [a|j|j epoch sl lm|j|ref l]; simpl.
  - destruct (__init__ a (world s)) as [[new|e|e new] w']; simpl.
    + exists self. split; [by apply lookup_app_l_Some|done].
    + by exists self.
    + by exists self.
  - destruct (instances s !! j) as [other|] eqn:Hj; [|by exists self].
    rewrite on_train_begin_eq. simpl. destruct (decide (j = i)) as [->|Hne].
    + rewrite list_lookup_insert_eq by done. eexists. split; [done|].
      simpl. congruence.
    + rewrite list_lookup_insert_ne by done. by exists self.
  - destruct (instances s !! j) as [other|] eqn:Hj; [|by exists self].
    destruct (on_epoch_end_keeps_sample other epoch sl lm (world s))
      as [_ Hkeep].
    destruct (on_epoch_end other epoch sl lm (world s))
      as [[self'|e|e self'] w']; simpl in *; [|by exists self|].
    + destruct (decide (j = i)) as [->|Hne].
      * rewrite list_lookup_insert_eq by done. eexists. split; [done|].
        rewrite (Hkeep self' (or_introl eq_refl)). congruence.
      * rewrite list_lookup_insert_ne by done. by exists self.
    + destruct (decide (j = i)) as [->|Hne].
      * rewrite list_lookup_insert_eq by done. eexists. split; [done|].
        rewrite (Hkeep self' (or_intror (ex_intro _ e eq_refl))). congruence.
      * rewrite list_lookup_insert_ne by done. by exists self.
  - destruct (instances s !! j) as [other|]; [|by exists self].
    destruct (on_train_end other (world s)) as [[[]|e|e []] w']; by exists self.
  - by exists self.
Qed.

Lemma run_keeps_sample (ops : list Op) (s : State) (i : nat) (self : t) :
  instances s !! i = Some self →
  ∃ self', instances (run ops s) !! i = Some self'
           ∧ validation_data self' = validation_data self.
Proof.
  revert s self. induction ops as [|op ops IH]; intros s self Hi.
  - by exists self.
  - destruct (step_keeps_sample s op i self Hi) as (self1 & H1 & Hv1).
    destruct (IH (step s op) self1 H1) as (self' & H' & Hv').
    exists self'. split; [done|congruence].
Qed.

(** Only a construction uses the random state. *)
Lemma step_hook_entropy (s : State) (op : Op) :
  is_hook op = true → entropy (world (step s op)) = entropy (world s).
Proof.
  destruct op as [a|j|j epoch sl lm|j|ref l]; simpl; intros Hh; try done.
  - destruct (instances s !! j) as [self|]; [|done].
    rewrite store_world, on_train_begin_eq. simpl.
    by destruct (watch_called (world s)).
  - destruct (instances s !! j) as [self|]; [|done].
    rewrite store_world. apply on_epoch_end_keeps_sample.
  - destruct (instances s !! j) as [self|]; [|done].
    rewrite store_world. apply on_train_end_entropy.
Qed.

Lemma run_hooks_entropy (ops : list Op) (s : State) :
  forallb is_hook ops = true →
  entropy (world (run ops s)) = entropy (world s).
Proof.
  revert s. induction ops as [|op ops IH]; intros s; [done|].
  simpl. intros [Hop Hops]%andb_true_iff.
  by rewrite IH, step_hook_entropy.
Qed.

(** C6. With [data_type] set and no (or an empty) [validation_data],
    the constructor draws a sample whenever it runs at all, that is with
    an active run and a number of predictions that is not negative; it
    raises otherwise, leaving the world as it was.  The sample set of the
    instance holds the validation items at the indices that
    [random.sample] drew.  There are as many indices as the smaller of
    [predictions] and the size of the validation set; they are pairwise
    different and below that size; every such selection is drawn from
    exactly one canonical random state, so all are equally likely.  After
    that no hook uses the random state, and whatever the process does
    later, the instance keeps this sample set. *)
Theorem sample_drawn_once (a : Args) (w : World) :
  truthy_str (arg_data_type a) = true →
  truthy_list (arg_validation_data a) = false →
  let ds := valid_ds (learners w (arg_learn a)) in
  let k := Z.to_nat (arg_predictions a `min` Z.of_nat (length ds)) in
  (is_Some (wandb_run w) → 0 ≤ arg_predictions a →
   ∃ self w' indices items,
     __init__ a w = (Ok self, w')
     ∧ indices = Random.draw (seq 0 (length ds)) k (entropy w)
     ∧ validation_data self = Some items
     ∧ Forall2 (λ i it, ds !! i = Some it) indices items
     ∧ Z.of_nat (length indices)
       = arg_predictions a `min` Z.of_nat (length ds)
     ∧ NoDup indices
     ∧ (∀ i, i ∈ indices → (i < length ds)%nat)
     ∧ (∀ l,
          length l = k → NoDup l → (∀ i, i ∈ l → (i < length ds)%nat) →
          ∃ ent,
            (canonical (length ds) k ent
             ∧ Random.draw (seq 0 (length ds)) k ent = l)
            ∧ ∀ ent',
                canonical (length ds) k ent'
                ∧ Random.draw (seq 0 (length ds)) k ent' = l →
                ent' = ent)
     ∧ (∀ epoch smooth_loss last_metrics w1 self1 w1',
          on_epoch_end self epoch smooth_loss last_metrics w1
          = (Ok self1, w1') →
          validation_data self1 = Some items ∧ entropy w1' = entropy w1)
     ∧ (∀ ops s i,
          instances s !! i = Some self →
          ∃ self', instances (run ops s) !! i = Some self'
                   ∧ validation_data self' = Some items)
     ∧ (∀ ops s,
          forallb is_hook ops = true →
          entropy (world (run ops s)) = entropy (world s)))
  ∧ (wandb_run w = None ∨ arg_predictions a < 0 →
     ∃ e, __init__ a w = (Raise e, w)).
Proof.
  intros Htype Hdata ds k.
  assert (needs_draw a = true) as Hdraw.
  { unfold needs_draw. by rewrite Htype, Hdata. }
  split.
  - intros [run Hrun] Hpos.
    destruct (init_draw a w run Hrun Hdraw Hpos) as (items & Heq & Hall).
    fold ds in Hall. change (Z.to_nat (draw_count a w)) with k in Hall, Heq.
    destruct (sample_indices (length ds) k (entropy w))
      as (Hlen & Hnd & Hlt); [unfold k; lia|].
    eexists _, _, _, items. split; [exact Heq|]. split; [done|].
    split_and!; try done.
    + rewrite Hlen. unfold k. lia.
    + intros l. apply sample_uniform.
    + intros epoch smooth_loss last_metrics w1 self1 w1' Hcall.
      destruct (on_epoch_end_keeps_sample (constructed a run (Some items))
                  epoch smooth_loss last_metrics w1) as [Hent Hkeep].
      rewrite Hcall in Hent, Hkeep. simpl in *.
      by rewrite (Hkeep self1 (or_introl eq_refl)).
    + intros ops s i Hi.
      destruct (run_keeps_sample ops s i _ Hi) as (self' & H' & Hv).
      by exists self'.
    + apply run_hooks_entropy.
  - destruct (wandb_run w) as [run|] eqn:Hrun.
    + intros [?|Hneg]; [done|]. eexists.
      by apply (init_negative a w run).
    + intros _. eexists. by apply init_no_run.
Qed.

Lemma sample_drawn_once_witness :
  ∃ self w' indices items,
    __init__ (default_args 0) Demo.world = (Ok self, w')
    ∧ validation_data self = Some items
    ∧ Forall2 (λ i it, valid_ds Demo.learner !! i = Some it) indices items
    ∧ Z.of_nat (length indices) = 3
    ∧ NoDup indices.
Proof.
  destruct (sample_drawn_once (default_args 0) Demo.world eq_refl eq_refl)
    as [Hdraws _].
  destruct Hdraws
    as (self & w' & indices & items & Heq & _ & Hv & Hall & Hlen & Hnd & _).
  - eexists. reflexivity.
  - discriminate.
  - exists self, w', indices, items.
    split; [exact Heq|]. split; [exact Hv|]. split; [exact Hall|].
    split; [exact Hlen|exact Hnd].
Defined.

End SampleSet.

(** ** What an epoch emits *)

Section EpochTrace.

Import WandbCallback.

Lemma commits_app (t1 t2 : list Event) :
  commits (t1 ++ t2) = (commits t1 + commits t2)%nat.
Proof.
  induction t1 as [|e t1 IH]; simpl; [done|].
  destruct e as [| | | | |fields []]; simpl; rewrite IH; done.
Qed.

Lemma commits_sample_events (self : t) (w : World) :
  commits (sample_events self w) = 0%nat.
Proof. unfold sample_events. by destruct truthy_list. Qed.

Lemma commits_checkpoint_events (self : t) (epoch : Z) (w : World) :
  commits (checkpoint_events self epoch w) = 0%nat.
Proof.
  unfold checkpoint_events.
  destruct (save_model self && is_better self w); [|done].
  by destruct (monitored self w).
Qed.

(** The events of a call, in order: those of the checkpoint step, the
    sample log, the metrics log.  A call that raises emits at most the
    notice of a better model, when it is the write of the checkpoint that
    fails; nothing else has happened to the world then but what the
    failed write left in the file. *)
Lemma on_epoch_end_shape (self : t) (epoch : Z) (smooth_loss : float)
    (last_metrics : list float) (w : World) :
  if is_ok (on_epoch_end self epoch smooth_loss last_metrics w).1 then
    emitted w (on_epoch_end self epoch smooth_loss last_metrics w).2
    = checkpoint_events self epoch w ++ sample_events self w
      ++ [metric_event self epoch smooth_loss last_metrics w]
  else
    emitted w (on_epoch_end self epoch smooth_loss last_metrics w).2
    = take 1 (checkpoint_events self epoch w)
    ∧ ∀ e, (on_epoch_end self epoch smooth_loss last_metrics w).1 = Raise e →
           (on_epoch_end self epoch smooth_loss last_metrics w).2 = w.
Proof.
  rewrite on_epoch_end_eq. unfold checkpoint_events, is_better.
  destruct (save_model self); simpl.
  - rewrite save_best_eq. destruct (monitored self w) as [current|].
    + destruct (best self) as [b|].
      * destruct (Tracker.compare (operator self) current b); simpl.
        -- destruct (faults w (model_path self)) as [fault|]; simpl.
           ++ split; [|done]. apply emitted_app. by destruct fault.
           ++ apply emitted_app. rewrite logged_trace. simpl.
              by rewrite <- app_assoc.
        -- apply emitted_app, logged_trace.
      * simpl. split; [|done]. apply emitted_app. by rewrite app_nil_r.
    + simpl. apply emitted_app, logged_trace.
  - apply emitted_app, logged_trace.
Qed.

Lemma commits_take (n : nat) (evs : list Event) :
  commits evs = 0%nat → commits (take n evs) = 0%nat.
Proof.
  revert n. induction evs as [|e evs IH]; intros [|n] H; simpl in *;
    try done.
  destruct e as [| | | | |fields []]; simpl in *; try done; by apply IH.
Qed.

(** X1. A call of [on_epoch_end] that returns logs with [commit=True]
    exactly once, and that as the very last thing it does: what it emits
    is some events without a commit followed by the metrics record.  A
    call that raises logs nothing, with or without a commit: all it may
    have emitted is the notice of a better model, when the write of the
    checkpoint is what failed; and a call that raises before it assigned
    anything to the instance leaves the world as it was. *)
Theorem one_commit_per_epoch (self : t) (epoch : Z) (smooth_loss : float)
    (last_metrics : list float) (w : World) :
  let r := on_epoch_end self epoch smooth_loss last_metrics w in
  (is_ok r.1 = true →
   ∃ before,
     emitted w r.2
     = before
       ++ [ELog (logs (recorder_names (learners w (learn self))) epoch
                   smooth_loss last_metrics) true]
     ∧ commits before = 0%nat)
  ∧ (is_ok r.1 = false →
     emitted w r.2 = take 1 (checkpoint_events self epoch w)
     ∧ ∀ fields commit, ELog fields commit ∉ emitted w r.2)
  ∧ (∀ e, r.1 = Raise e → r.2 = w)
  ∧ commits (emitted w r.2) = (if is_ok r.1 then 1 else 0)%nat.
Proof.
  intros r. pose proof (on_epoch_end_shape self epoch smooth_loss
                          last_metrics w) as Hshape.
  fold r in Hshape. destruct (is_ok r.1) eqn:Hok.
  - split_and!; [|done| |].
    + intros _. exists (checkpoint_events self epoch w ++ sample_events self w).
      split; [by rewrite Hshape, <- app_assoc|].
      by rewrite commits_app, commits_checkpoint_events,
        commits_sample_events.
    + intros e He. by rewrite He in Hok.
    + rewrite Hshape, !commits_app, commits_checkpoint_events,
        commits_sample_events. done.
  - destruct Hshape as [Hem Hraise]. split_and!; [done| |done|].
    + intros _. split; [done|]. intros fields commit. rewrite Hem.
      unfold checkpoint_events.
      destruct (save_model self && is_better self w); simpl;
        [|apply not_elem_of_nil].
      destruct (monitored self w); simpl; [|apply not_elem_of_nil].
      intros Hin. apply elem_of_cons in Hin as [?|Hin]; [done|].
      by apply elem_of_nil in Hin.
    + rewrite Hem. apply commits_take, commits_checkpoint_events.
Qed.

Lemma one_commit_per_epoch_witness :
  commits
    (emitted Demo.world_constructed
       (on_epoch_end Demo.tracking 1 0.25 [0.3; 0.9]%float
          Demo.world_constructed).2)
  = 1%nat.
Proof.
  apply (one_commit_per_epoch Demo.tracking 1 0.25%float [0.3; 0.9]%float
           Demo.world_constructed).
Defined.

Lemma filter_scalar_none (l : Learner) (items : list Item) :
  (∀ x y, (x, y) ∈ items → pred_shape (predict l x) ≠ []) →
  filter (λ it, scalar l it = true) items = [].
Proof.
  induction items as [|[x y] items IH]; intros Hall; [done|].
  rewrite filter_cons_False.
  - apply IH. intros x' y' Hin. apply (Hall x' y'). by right.
  - unfold scalar. simpl. specialize (Hall x y ltac:(left)).
    by destruct (pred_shape (predict l x)).
Qed.

Lemma pred_log_filter (l : Learner) (items : list Item) :
  pred_log l items
  = image_of l <$> filter (λ it, scalar l it = true) items.
Proof.
  induction items as [|[x y] items IH]; [done|].
  cbn [pred_log]. destruct (pred_shape (predict l x)) eqn:Hshape.
  - rewrite filter_cons_True by (unfold scalar; simpl; by rewrite Hshape).
    by rewrite fmap_cons, IH.
  - rewrite filter_cons_False; [done|].
    unfold scalar. simpl. by rewrite Hshape.
Qed.

(** X2. A call that returns with a sample set that is not empty logs,
    without committing, one field "Prediction Samples": the images, in
    the order of the sample set, of exactly those items whose prediction
    is a scalar, each with the data of the item and a caption made of
    its label and the predicted class. *)
Theorem samples_are_scalar_predictions (self : t) (epoch : Z)
    (smooth_loss : float) (last_metrics : list float) (w : World)
    (items : list Item) :
  validation_data self = Some items →
  items ≠ [] →
  let r := on_epoch_end self epoch smooth_loss last_metrics w in
  let l := learners w (learn self) in
  is_ok r.1 = true →
  ELog {[ "Prediction Samples" :=
          VImages (image_of l
                     <$> filter (λ it, scalar l it = true) items) ]}
       false
  ∈ emitted w r.2.
Proof.
  intros Hv Hne r l Hok.
  pose proof (on_epoch_end_shape self epoch smooth_loss last_metrics w)
    as Hshape.
  fold r in Hshape. rewrite Hok in Hshape. rewrite Hshape.
  apply elem_of_app. right. apply elem_of_app. left.
  unfold sample_events. rewrite Hv. destruct items as [|it items]; [done|].
  cbn [truthy_list default]. rewrite pred_log_filter. left.
Qed.

Lemma samples_are_scalar_predictions_witness :
  ELog {[ "Prediction Samples" :=
          VImages
            [ {| img_data := [2];
                 img_caption := caption "dog" "cat" |};
              {| img_data := [1];
                 img_caption := caption "cat" "cat" |};
              {| img_data := [3];
                 img_caption := caption "bird" "cat" |} ] ]}
       false
  ∈ emitted Demo.world_constructed
      (on_epoch_end Demo.observer 1 0.25 [0.3; 0.9]%float
         Demo.world_constructed).2.
Proof.
  apply (samples_are_scalar_predictions Demo.observer 1 0.25%float
           [0.3; 0.9]%float Demo.world_constructed
           [([2], "dog"); ([1], "cat"); ([3], "bird")]).
  - reflexivity.
  - discriminate.
  - reflexivity.
Defined.

(** X3. If no prediction for the sample set is a scalar, the set being
    not empty, a call that returns still logs the field "Prediction
    Samples", with an empty list of images. *)
Theorem non_scalar_predictions_log_empty_list (self : t) (epoch : Z)
    (smooth_loss : float) (last_metrics : list float) (w : World)
    (items : list Item) :
  validation_data self = Some items →
  items ≠ [] →
  (∀ x y, (x, y) ∈ items →
          pred_shape (predict (learners w (learn self)) x) ≠ []) →
  let r := on_epoch_end self epoch smooth_loss last_metrics w in
  is_ok r.1 = true →
  ELog {[ "Prediction Samples" := VImages [] ]} false ∈ emitted w r.2.
Proof.
  intros Hv Hne Hshape r Hok.
  pose proof (filter_scalar_none _ _ Hshape) as Hnone.
  pose proof (on_epoch_end_shape self epoch smooth_loss last_metrics w)
    as Hs.
  fold r in Hs. rewrite Hok in Hs. rewrite Hs.
  apply elem_of_app. right. apply elem_of_app. left.
  unfold sample_events. rewrite Hv.
  replace (truthy_list (Some items)) with true by by destruct items.
  change (default [] (Some items)) with items.
  rewrite pred_log_filter, Hnone. left.
Qed.

Lemma non_scalar_predictions_log_empty_list_witness :
  ELog {[ "Prediction Samples" := VImages [] ]} false
  ∈ emitted Cases.mask_world
      (on_epoch_end Cases.mask_observer 1 0.25 [0.3]%float
         Cases.mask_world).2.
Proof.
  apply (non_scalar_predictions_log_empty_list Cases.mask_observer 1
           0.25%float [0.3]%float Cases.mask_world
           [([1], "cat"); ([2], "dog")]).
  - reflexivity.
  - discriminate.
  - intros x y _. discriminate.
  - reflexivity.
Defined.

End EpochTrace.

(** ** The comparison on binary64 numbers *)

Section Floats.

Import Tracker.

Lemma is_nan_spec (x : float) :
  PrimFloat.is_nan x = true → Prim2SF x = S754_nan.
Proof.
  unfold PrimFloat.is_nan. rewrite FloatAxioms.eqb_spec. unfold SFeqb.
  destruct (Prim2SF x) as [s|s| |s m e]; simpl; try done.
  - by destruct s.
  - destruct s; by rewrite Z.compare_refl, Pos.compare_refl.
Qed.

(** A NaN is better than nothing, and nothing is better than a NaN. *)
Lemma compare_nan (d : Direction) (x y : float) :
  PrimFloat.is_nan x = true ∨ PrimFloat.is_nan y = true →
  compare d x y = false.
Proof.
  intros [H|H]; apply is_nan_spec in H; unfold compare; destruct d;
    rewrite ltb_spec; unfold SFltb; rewrite H; try done;
    match goal with |- context [SFcompare ?a _] => by destruct a end.
Qed.

(** Every number but NaN and the start value of [best] is better than
    that start value. *)
Lemma compare_initial_best (d : Direction) (x : float) :
  PrimFloat.is_nan x = false →
  x ≠ initial_best d →
  compare d x (initial_best d) = true.
Proof.
  intros Hnan Hne. unfold PrimFloat.is_nan in Hnan.
  rewrite FloatAxioms.eqb_spec in Hnan. unfold compare, initial_best in *.
  destruct d; rewrite ltb_spec; unfold SFltb, SFeqb in *.
  - change (Prim2SF infinity) with (S754_infinity false).
    destruct (Prim2SF x) as [s|[]| |s m e] eqn:Hx; simpl in *;
      try done; try by destruct s.
    destruct Hne. by apply Prim2SF_inj.
  - change (Prim2SF neg_infinity) with (S754_infinity true).
    destruct (Prim2SF x) as [s|[]| |s m e] eqn:Hx; simpl in *;
      try done; try by destruct s.
    destruct Hne. by apply Prim2SF_inj.
Qed.

End Floats.

(** ** When an epoch saves *)

Section Saving.

Import WandbCallback.

Lemma not_better_no_write (self : t) (epoch : Z) (smooth_loss : float)
    (last_metrics : list float) (w : World) :
  is_better self w = false →
  files (on_epoch_end self epoch smooth_loss last_metrics w).2 = files w
  ∧ written
      (emitted w (on_epoch_end self epoch smooth_loss last_metrics w).2)
    = []
  ∧ ∀ self',
      (on_epoch_end self epoch smooth_loss last_metrics w).1 = Ok self' →
      self' = self.
Proof.
  intros Hb. unfold is_better in Hb. rewrite on_epoch_end_eq.
  assert (written (emitted w (logged self epoch smooth_loss last_metrics w))
          = []) as Hquiet.
  { erewrite emitted_app by apply logged_trace.
    by rewrite written_app, written_sample_events. }
  destruct (save_model self).
  - rewrite save_best_eq. destruct (monitored self w) as [current|].
    + destruct (best self) as [b|].
      * rewrite Hb. split_and!; [done..|]. by intros self' [= <-].
      * simpl. split_and!; [done| |done]. unfold emitted.
        by rewrite drop_all.
    + split_and!; [done..|]. by intros self' [= <-].
  - split_and!; [done..|]. by intros self' [= <-].
Qed.

(** X4. A monitored value equal to [best] is not better: the epoch
    returns the instance as it was and writes nothing, in "min" as in
    "max" mode. *)
Theorem tie_does_not_save (self : t) (epoch : Z) (smooth_loss : float)
    (last_metrics : list float) (w : World) (b : float) :
  best self = Some b →
  monitored self w = Some b →
  ∃ w',
    on_epoch_end self epoch smooth_loss last_metrics w = (Ok self, w')
    ∧ files w' = files w
    ∧ written (emitted w w') = [].
Proof.
  intros Hbest Hcur.
  assert (is_better self w = false) as Hb.
  { unfold is_better. rewrite Hcur, Hbest. apply compare_irrefl. }
  destruct (not_better_no_write self epoch smooth_loss last_metrics w Hb)
    as (Hfiles & Hwritten & Hself).
  destruct (on_epoch_end self epoch smooth_loss last_metrics w)
    as [[self'|e|e self'] w'] eqn:Hcall; simpl in *.
  - exists w'. by rewrite (Hself self' eq_refl).
  - rewrite on_epoch_end_eq in Hcall. destruct (save_model self).
    + rewrite save_best_eq, Hcur, Hbest, compare_irrefl in Hcall.
      discriminate Hcall.
    + discriminate Hcall.
  - rewrite on_epoch_end_eq in Hcall. destruct (save_model self).
    + rewrite save_best_eq, Hcur, Hbest, compare_irrefl in Hcall.
      discriminate Hcall.
    + discriminate Hcall.
Qed.

Lemma tie_does_not_save_witness :
  ∃ w',
    on_epoch_end (set_best (Some 0.5%float) Demo.tracking) 2 0.25
      [0.3; 0.9]%float Demo.world_constructed
    = (Ok (set_best (Some 0.5%float) Demo.tracking), w')
    ∧ files w' = files Demo.world_constructed
    ∧ written (emitted Demo.world_constructed w') = [].
Proof.
  apply (tie_does_not_save (set_best (Some 0.5%float) Demo.tracking) 2
           0.25%float [0.3; 0.9]%float Demo.world_constructed 0.5%float).
  - reflexivity.
  - reflexivity.
Defined.

(** X5. A monitored value that is NaN never counts as better: whatever
    [best] and the mode are, the epoch writes no checkpoint and leaves
    the files as they are. *)
Theorem nan_never_saves (self : t) (epoch : Z) (smooth_loss : float)
    (last_metrics : list float) (w : World) (current : float) :
  monitored self w = Some current →
  PrimFloat.is_nan current = true →
  files (on_epoch_end self epoch smooth_loss last_metrics w).2 = files w
  ∧ written
      (emitted w (on_epoch_end self epoch smooth_loss last_metrics w).2)
    = []
  ∧ ∀ self',
      (on_epoch_end self epoch smooth_loss last_metrics w).1 = Ok self' →
      best self' = best self.
Proof.
  intros Hcur Hnan.
  assert (is_better self w = false) as Hb.
  { unfold is_better. rewrite Hcur. destruct (best self); [|done].
    apply compare_nan. by left. }
  destruct (not_better_no_write self epoch smooth_loss last_metrics w Hb)
    as (Hfiles & Hwritten & Hself).
  split_and!; [done..|]. by intros self' ->%Hself.
Qed.

Lemma nan_never_saves_witness :
  files
    (on_epoch_end Demo.tracking 1 0.25 [nan]%float
       (set_learners (λ _, Demo.learner_with nan) Demo.world_constructed)).2
  = ∅.
Proof.
  apply (nan_never_saves Demo.tracking 1 0.25%float [nan]%float
           (set_learners (λ _, Demo.learner_with nan) Demo.world_constructed)
           nan).
  - reflexivity.
  - reflexivity.
Defined.

(** X6. [on_train_begin] forgets the best value of an earlier training:
    after it, the first epoch whose monitored value is neither NaN nor
    the start value itself (+infinity for "min", -infinity for "max")
    takes the value as the best and writes the checkpoint, however good
    the value saved before was.  If the file can be written, the epoch
    returns and the file holds the parameters of the model; if it cannot,
    the epoch raises the IOError of the write with [best] already set to
    the value. *)
Theorem first_epoch_after_train_begin_saves (self : t) (w0 : World)
    (epoch : Z) (smooth_loss : float) (last_metrics : list float)
    (w : World) (current : float) :
  save_model self = true →
  monitored self w = Some current →
  PrimFloat.is_nan current = false →
  current ≠ Tracker.initial_best (operator self) →
  ∃ self1 w1,
    on_train_begin self w0 = (Ok self1, w1)
    ∧ match faults w (model_path self) with
      | None =>
          ∃ self2 w2,
            on_epoch_end self1 epoch smooth_loss last_metrics w
            = (Ok self2, w2)
            ∧ best self2 = Some current
            ∧ files w2
              = <[model_path self := model (learners w (learn self))]>
                  (files w)
      | Some fault =>
          ∃ self2 w2,
            on_epoch_end self1 epoch smooth_loss last_metrics w
            = (Abort (IOError (fault_message fault)) self2, w2)
            ∧ best self2 = Some current
            ∧ files w2
              = match fault with
                | OpenFails => files w
                | SaveFails partial =>
                    <[model_path self := partial]> (files w)
                end
      end.
Proof.
  intros Hsave Hcur Hnan Hne. eexists _, _.
  split; [apply on_train_begin_eq|].
  set (self1 := set_super (Tracker.on_train_begin (super self)) self).
  assert (monitored self1 w = Some current) as Hcur1 by exact Hcur.
  assert (best self1 = Some (Tracker.initial_best (operator self)))
    as Hbest1 by reflexivity.
  rewrite on_epoch_end_eq. change (save_model self1) with (save_model self).
  rewrite Hsave, save_best_eq, Hcur1, Hbest1.
  change (operator self1) with (operator self).
  change (model_path self1) with (model_path self).
  rewrite compare_initial_best by done.
  destruct (faults w (model_path self)) as [fault|].
  - eexists _, _. split; [done|]. split; [done|]. by destruct fault.
  - eexists _, _. done.
Qed.

Lemma first_epoch_after_train_begin_saves_witness :
  (∃ self1 w1,
     on_train_begin (set_best (Some 0.125%float) Demo.tracking)
       Demo.world_constructed
     = (Ok self1, w1)
     ∧ ∃ self2 w2,
         on_epoch_end self1 1 0.25 [0.3; 0.9]%float Demo.world_saved
         = (Ok self2, w2)
         ∧ best self2 = Some 0.5%float
         ∧ files w2
           = <["/run/bestmodel.pth" := [1.5; -0.5]%float]>
               (files Demo.world_saved))
  ∧ (∃ self1 w1,
       on_train_begin (set_best (Some 0.125%float) Demo.tracking)
         Demo.world_constructed
       = (Ok self1, w1)
       ∧ ∃ self2 w2,
           on_epoch_end self1 1 0.25 [0.3; 0.9]%float Cases.world_read_only
           = (Abort (IOError "cannot open the file for writing") self2, w2)
           ∧ best self2 = Some 0.5%float
           ∧ files w2 = files Cases.world_read_only).
Proof.
  split.
  - apply (first_epoch_after_train_begin_saves
             (set_best (Some 0.125%float) Demo.tracking)
             Demo.world_constructed 1 0.25%float [0.3; 0.9]%float
             Demo.world_saved 0.5%float).
    + reflexivity.
    + reflexivity.
    + reflexivity.
    + intros H. apply (f_equal (λ x, PrimFloat.eqb x infinity)) in H.
      vm_compute in H. discriminate H.
  - apply (first_epoch_after_train_begin_saves
             (set_best (Some 0.125%float) Demo.tracking)
             Demo.world_constructed 1 0.25%float [0.3; 0.9]%float
             Cases.world_read_only 0.5%float).
    + reflexivity.
    + reflexivity.
    + reflexivity.
    + intros H. apply (f_equal (λ x, PrimFloat.eqb x infinity)) in H.
      vm_compute in H. discriminate H.
Defined.



End Saving.

(** ** What the hooks leave alone *)

Section Frames.

Import WandbCallback Process.

Lemma on_epoch_end_frame (self : t) (epoch : Z) (smooth_loss : float)
    (last_metrics : list float) (w : World) :
  let w' := (on_epoch_end self epoch smooth_loss last_metrics w).2 in
  learners w' = learners w
  ∧ wandb_run w' = wandb_run w
  ∧ ∀ path, path ≠ model_path self → files w' !! path = files w !! path.
Proof.
  simpl. rewrite on_epoch_end_eq. destruct (save_model self); [|done].
  rewrite save_best_eq. destruct (monitored self w) as [current|]; [|done].
  destruct (best self) as [b|]; [|done].
  destruct (Tracker.compare (operator self) current b); [|done].
  destruct (faults w (model_path self)) as [[|partial]|]; simpl;
    (split_and!; [done..|]); intros path Hne; [done| |];
    by rewrite lookup_insert_ne.
Qed.

(** X8. The hooks write no file but the checkpoint: [on_train_begin]
    and [on_train_end] leave all files as they are, and [on_epoch_end]
    leaves every file other than [model_path] as it is. *)
Theorem hooks_write_only_the_checkpoint (self : t) (w : World) :
  files (on_train_begin self w).2 = files w
  ∧ files (on_train_end self w).2 = files w
  ∧ ∀ epoch smooth_loss last_metrics path,
      path ≠ model_path self →
      files (on_epoch_end self epoch smooth_loss last_metrics w).2 !! path
      = files w !! path.
Proof.
  split_and!.
  - rewrite on_train_begin_eq. simpl. by destruct (watch_called w).
  - rewrite on_train_end_eq. simpl. destruct (save_model self); [|done].
    by destruct (files w !! model_path self).
  - intros epoch smooth_loss last_metrics path Hne.
    by apply on_epoch_end_frame.
Qed.

Lemma hooks_write_only_the_checkpoint_witness :
  files
    (on_epoch_end Demo.tracking 1 0.25 [0.3; 0.9]%float
       (set_files {[ "/run/config.yaml" := [7]%float ]}
          Demo.world_constructed)).2
    !! "/run/config.yaml"
  = Some [7]%float.
Proof.
  etrans.
  - apply (proj2 (proj2 (hooks_write_only_the_checkpoint Demo.tracking
                           (set_files {[ "/run/config.yaml" := [7]%float ]}
                              Demo.world_constructed)))
             1 0.25%float [0.3; 0.9]%float "/run/config.yaml").
    discriminate.
  - reflexivity.
Defined.

(** X9. The callback changes the model at the end of training only:
    [on_train_begin] and [on_epoch_end] leave every learner as it is;
    [on_train_end] leaves the learners of other observers as they are
    and changes nothing of its own learner but the parameters, and with
    [save_model] unset it changes nothing at all, even when a checkpoint
    file exists. *)
Theorem model_changes_only_at_train_end (self : t) (w : World) :
  learners (on_train_begin self w).2 = learners w
  ∧ (∀ epoch smooth_loss last_metrics,
       learners (on_epoch_end self epoch smooth_loss last_metrics w).2
       = learners w)
  ∧ (∀ ref, ref ≠ learn self →
            learners (on_train_end self w).2 ref = learners w ref)
  ∧ same_but_model (learners w (learn self))
      (learners (on_train_end self w).2 (learn self))
  ∧ (save_model self = false → on_train_end self w = (Ok tt, w)).
Proof.
  split_and!.
  - rewrite on_train_begin_eq. simpl. by destruct (watch_called w).
  - intros epoch smooth_loss last_metrics. by apply on_epoch_end_frame.
  - intros ref Hne. rewrite on_train_end_eq. simpl.
    destruct (save_model self); [|done].
    destruct (files w !! model_path self); [|done].
    simpl. by rewrite fn_lookup_insert_ne.
  - rewrite on_train_end_eq. simpl. destruct (save_model self); [|done].
    destruct (files w !! model_path self); [|done].
    simpl. by rewrite fn_lookup_insert.
  - intros Hsave. by rewrite on_train_end_eq, Hsave.
Qed.

Lemma model_changes_only_at_train_end_witness :
  on_train_end Demo.observer Demo.world_saved = (Ok tt, Demo.world_saved).
Proof.
  apply (model_changes_only_at_train_end Demo.observer Demo.world_saved).
  reflexivity.
Defined.

Lemma same_config_refl (self : t) : same_config self self.
Proof. by repeat split. Qed.

Lemma same_config_trans (a b c : t) :
  same_config a b → same_config b c → same_config a c.
Proof.
  unfold same_config. intros (?&?&?&?&?&?&?&?) (?&?&?&?&?&?&?&?).
  split_and!; congruence.
Qed.

Lemma on_epoch_end_same_config (self : t) (epoch : Z) (smooth_loss : float)
    (last_metrics : list float) (w : World) (self' : t) :
  (on_epoch_end self epoch smooth_loss last_metrics w).1 = Ok self'
  ∨ (∃ e, (on_epoch_end self epoch smooth_loss last_metrics w).1
          = Abort e self') →
  same_config self self'
  ∧ (is_Some (best self) → is_Some (best self')).
Proof.
  rewrite on_epoch_end_eq. destruct (save_model self) eqn:Hsave.
  - rewrite save_best_eq. destruct (monitored self w) as [current|].
    + destruct (best self) as [b|] eqn:Hb; [|by intros [?|[e ?]]].
      destruct (Tracker.compare (operator self) current b).
      * destruct (faults w (model_path self)) as [fault|].
        -- intros [[=]|[e [= _ <-]]].
           split; [by repeat split|intros _; by eexists].
        -- intros [[= <-]|[e [=]]].
           split; [by repeat split|intros _; by eexists].
      * intros [[= <-]|[e [=]]].
        split; [by repeat split|intros _; by eexists].
    + intros [[= <-]|[e [=]]]. split; [apply same_config_refl|done].
  - intros [[= <-]|[e [=]]]. split; [apply same_config_refl|done].
Qed.

(** A step keeps the configuration of every instance there is, and a
    [best] that is set stays set. *)
Lemma step_same_config (s : State) (op : Op) (i : nat) (self : t) :
  instances s !! i = Some self →
  ∃ self', instances (step s op) !! i = Some self'
           ∧ same_config self self'
           ∧ (is_Some (best self) → is_Some (best self')).
Proof.
  intros Hi. pose proof (lookup_lt_Some _ _ _ Hi) as Hlt.
  assert (∃ self', instances s !! i = Some self' ∧ same_config self self'
                   ∧ (is_Some (best self) → is_Some (best self')))
    as Hsame by (exists self; split; [done|]; split;
                 [apply same_config_refl|done]).
  destruct op as [a|j|j epoch sl lm|j|ref l]; simpl.
  - destruct (__init__ a (world s)) as [[new|e|e new] w']; simpl;
      [|done..].
    exists self. split; [by apply lookup_app_l_Some|].
    split; [apply same_config_refl|done].
  - destruct (instances s !! j) as [other|] eqn:Hj; [|done].
    rewrite on_train_begin_eq. simpl. destruct (decide (j = i)) as [->|Hne].
    + rewrite list_lookup_insert_eq by done. eexists. split; [done|].
      assert (other = self) as -> by congruence.
      split; [by repeat split|]. intros _. by eexists.
    + by rewrite list_lookup_insert_ne.
  - destruct (instances s !! j) as [other|] eqn:Hj; [|done].
    pose proof (on_epoch_end_same_config other epoch sl lm (world s))
      as Hkeep.
    destruct (on_epoch_end other epoch sl lm (world s))
      as [[self'|e|e self'] w']; simpl in *; [|done|].
    + destruct (decide (j = i)) as [->|Hne].
      * rewrite list_lookup_insert_eq by done. eexists. split; [done|].
        assert (other = self) as -> by congruence. apply Hkeep. by left.
      * by rewrite list_lookup_insert_ne.
    + destruct (decide (j = i)) as [->|Hne].
      * rewrite list_lookup_insert_eq by done. eexists. split; [done|].
        assert (other = self) as -> by congruence. apply Hkeep. right.
        by exists e.
      * by rewrite list_lookup_insert_ne.
  - destruct (instances s !! j) as [other|]; [|done].
    by destruct (on_train_end other (world s)) as [[[]|e|e []] w'].
  - done.
Qed.

Lemma run_same_config (ops : list Op) (s : State) (i : nat) (self : t) :
  instances s !! i = Some self →
  ∃ self', instances (run ops s) !! i = Some self'
           ∧ same_config self self'
           ∧ (is_Some (best self) → is_Some (best self')).
Proof.
  revert s self. induction ops as [|op ops IH]; intros s self Hi.
  - exists self. split; [done|]. split; [apply same_config_refl|done].
  - destruct (step_same_config s op i self Hi) as (self1 & H1 & Hc1 & Hb1).
    destruct (IH (step s op) self1 H1) as (self' & H' & Hc' & Hb').
    exists self'. split; [done|]. split; [by eapply same_config_trans|].
    auto.
Qed.

(** X10. The configuration of an observer is fixed at construction:
    whatever is constructed or called later in the process, the instance
    is still there with the same learner, monitored name, comparison,
    [save_model], [model_path], [log], [data_type] and sample set; only
    [best] can differ. *)
Theorem configuration_is_fixed (ops : list Op) (s : State) (i : nat)
    (self : t) :
  instances s !! i = Some self →
  ∃ self', instances (run ops s) !! i = Some self'
           ∧ learn self' = learn self
           ∧ monitor self' = monitor self
           ∧ operator self' = operator self
           ∧ save_model self' = save_model self
           ∧ model_path self' = model_path self
           ∧ log self' = log self
           ∧ data_type self' = data_type self
           ∧ validation_data self' = validation_data self.
Proof.
  intros Hi. destruct (run_same_config ops s i self Hi)
    as (self' & H' & Hc & _).
  by exists self'.
Qed.

Lemma configuration_is_fixed_witness :
  ∃ self',
    instances
      (run (drop 1 (Demo.four_epochs Tracker.Min))
         (step Demo.start (Construct (Demo.saving_args Tracker.Min))))
      !! 0%nat
    = Some self'
    ∧ model_path self' = "/run/bestmodel.pth"
    ∧ save_model self' = true.
Proof.
  destruct (configuration_is_fixed (drop 1 (Demo.four_epochs Tracker.Min))
              (step Demo.start (Construct (Demo.saving_args Tracker.Min)))
              0%nat
              (constructed (Demo.saving_args Tracker.Min)
                 {| run_dir := "/run" |} None)
              eq_refl)
    as (self' & Hi & _ & _ & _ & Hsave & Hpath & _).
  exists self'. split; [exact Hi|]. split; [exact Hpath|exact Hsave].
Defined.

(** X11. Once [on_train_begin] has run for an instance, no later call
    of [on_epoch_end] on it fails for want of a best value: [best] is set
    by [on_train_begin] and stays set whatever is constructed or called
    in the process, an epoch that fails the write of a checkpoint
    included.  An epoch with [best] set returns whenever the checkpoint
    file can be written, and in any world the only exception it raises
    is the IOError of that write. *)
Theorem epochs_return_after_train_begin (ops : list Op) (s : State)
    (i : nat) (self : t) :
  instances s !! i = Some self →
  ∃ self1,
    instances (step s (TrainBegin i)) !! i = Some self1
    ∧ is_Some (best self1)
    ∧ ∃ self',
        instances (run ops (step s (TrainBegin i))) !! i = Some self'
        ∧ is_Some (best self')
        ∧ ∀ epoch smooth_loss last_metrics w,
            (faults w (model_path self') = None →
             is_ok (on_epoch_end self' epoch smooth_loss last_metrics w).1
             = true)
            ∧ (∀ e, (on_epoch_end self' epoch smooth_loss last_metrics w).1
                    ≠ Raise e)
            ∧ (∀ e self'',
                 (on_epoch_end self' epoch smooth_loss last_metrics w).1
                 = Abort e self'' →
                 ∃ fault,
                   faults w (model_path self') = Some fault
                   ∧ e = IOError (fault_message fault)).
Proof.
  intros Hi. pose proof (lookup_lt_Some _ _ _ Hi) as Hlt.
  assert (∃ self1, instances (step s (TrainBegin i)) !! i = Some self1
                   ∧ is_Some (best self1)) as (self1 & H1 & Hb1).
  { simpl. rewrite Hi, on_train_begin_eq. simpl.
    rewrite list_lookup_insert_eq by done. eexists. split; [done|].
    by eexists. }
  exists self1. split; [done|]. split; [done|].
  destruct (run_same_config ops _ i self1 H1) as (self' & H' & _ & Hb').
  exists self'. split; [done|]. split; [auto|].
  intros epoch smooth_loss last_metrics w. rewrite on_epoch_end_eq.
  destruct (save_model self'); [|done]. rewrite save_best_eq.
  destruct (monitored self' w) as [current|]; [|done].
  destruct (Hb' Hb1) as [b ->].
  destruct (Tracker.compare (operator self') current b); [|done].
  destruct (faults w (model_path self')) as [fault|]; [|done].
  split_and!; [done|done|]. intros e self'' [= <- _]. by exists fault.
Qed.

Lemma epochs_return_after_train_begin_witness :
  ∃ self',
    instances
      (run (drop 2 (Demo.four_epochs Tracker.Min))
         (step (step Demo.start (Construct (Demo.saving_args Tracker.Min)))
            (TrainBegin 0)))
      !! 0%nat
    = Some self'
    ∧ is_Some (best self')
    ∧ is_ok (on_epoch_end self' 5 0.25 [0.3; 0.9]%float
               Demo.world_constructed).1
      = true.
Proof.
  destruct (epochs_return_after_train_begin
              (drop 2 (Demo.four_epochs Tracker.Min))
              (step Demo.start (Construct (Demo.saving_args Tracker.Min)))
              0%nat
              (constructed (Demo.saving_args Tracker.Min)
                 {| run_dir := "/run" |} None)
              eq_refl)
    as (_ & _ & _ & self' & Hi & Hb & Hreturns).
  exists self'. split; [exact Hi|]. split; [exact Hb|].
  apply (Hreturns 5 0.25%float [0.3; 0.9]%float Demo.world_constructed).
  reflexivity.
Defined.

End Frames.

(** ** More on construction *)

Section ConstructionMore.

Import WandbCallback.

(** X12. Constructing an observer does nothing to the world but use up
    random numbers: the run, the class attribute, the files, the
    learners and the trace are as before, also when the constructor
    raises, and without a sample to draw the world is unchanged. *)
Theorem construction_only_uses_random_numbers (a : Args) (w : World) :
  let w' := (__init__ a w).2 in
  wandb_run w' = wandb_run w
  ∧ watch_called w' = watch_called w
  ∧ files w' = files w
  ∧ learners w' = learners w
  ∧ trace w' = trace w
  ∧ (∃ n, entropy w' = drop n (entropy w))
  ∧ (needs_draw a = false → w' = w).
Proof.
  simpl. destruct (wandb_run w) as [run|] eqn:Hrun.
  - destruct (needs_draw a) eqn:Hdraw.
    + destruct (Z.lt_ge_cases (arg_predictions a) 0).
      * rewrite (init_negative a w run) by done. simpl.
        split_and!; try done. by exists 0%nat.
      * destruct (init_draw a w run) as (items & -> & _); [done..|].
        simpl. split_and!; try done. by eexists.
    + rewrite (init_no_draw a w run) by done. simpl.
      split_and!; try done. by exists 0%nat.
  - rewrite init_no_run by done. simpl. split_and!; try done.
    by exists 0%nat.
Qed.

Lemma construction_only_uses_random_numbers_witness :
  (__init__ Cases.explicit_args Demo.world).2 = Demo.world.
Proof.
  apply (construction_only_uses_random_numbers Cases.explicit_args
           Demo.world).
  reflexivity.
Defined.

(** X13. A sample set given to the constructor that is not empty is
    stored as it is, and so is any [validation_data] when [data_type] is
    unset: with an active run the constructor returns, draws nothing and
    never looks at [predictions], which may even be negative. *)
Theorem given_sample_set_is_kept (a : Args) (w : World) :
  is_Some (wandb_run w) →
  truthy_list (arg_validation_data a) = true
  ∨ truthy_str (arg_data_type a) = false →
  ∃ self,
    __init__ a w = (Ok self, w)
    ∧ validation_data self = arg_validation_data a.
Proof.
  intros [run Hrun] Hgiven. eexists. split.
  - apply (init_no_draw a w run Hrun). unfold needs_draw.
    destruct Hgiven as [->| ->]; [apply andb_false_r|done].
  - done.
Qed.

Lemma given_sample_set_is_kept_witness :
  ∃ self,
    __init__ Cases.explicit_args Demo.world = (Ok self, Demo.world)
    ∧ validation_data self = Some [([9], "fish")].
Proof.
  apply (given_sample_set_is_kept Cases.explicit_args Demo.world).
  - eexists. reflexivity.
  - left. reflexivity.
Defined.

Lemma items_of_indices (d : Item) (ds : list Item) (indices : list nat)
    (items : list Item) :
  Forall2 (λ i it, ds !! i = Some it) indices items →
  items = (λ i, default d (ds !! i)) <$> indices.
Proof.
  induction 1 as [|i it indices items Hi _ IH]; [done|].
  cbv beta in Hi. rewrite fmap_cons. cbv beta. rewrite Hi. simpl.
  by rewrite <- IH.
Qed.

Lemma lookup_all (d : Item) (ds : list Item) :
  (λ i, default d (ds !! i)) <$> seq 0 (length ds) = ds.
Proof.
  apply list_eq. intros i. rewrite list_lookup_fmap.
  destruct (decide (i < length ds)%nat) as [Hlt|Hge].
  - rewrite lookup_seq_lt by done. simpl.
    by destruct (lookup_lt_is_Some_2 ds i Hlt) as [it ->].
  - rewrite lookup_seq_ge by lia. simpl. symmetry.
    apply lookup_ge_None. lia.
Qed.

(** X14. When [predictions] is at least the size of the validation set,
    the sample set drawn is the whole validation set in some order:
    every validation item is in it exactly as often as in the set. *)
Theorem large_count_samples_everything (a : Args) (w : World) :
  is_Some (wandb_run w) →
  needs_draw a = true →
  Z.of_nat (length (valid_ds (learners w (arg_learn a))))
  ≤ arg_predictions a →
  ∃ self w' items,
    __init__ a w = (Ok self, w')
    ∧ validation_data self = Some items
    ∧ items ≡ₚ valid_ds (learners w (arg_learn a)).
Proof.
  intros [run Hrun] Hdraw Hlarge.
  set (ds := valid_ds (learners w (arg_learn a))) in *.
  destruct (init_draw a w run Hrun Hdraw) as (items & Heq & Hall); [lia|].
  fold ds in Hall.
  assert (Z.to_nat (draw_count a w) = length ds) as Hk.
  { unfold draw_count. fold ds. lia. }
  rewrite Hk in Hall. eexists _, _, items. split; [exact Heq|].
  split; [done|]. rewrite (items_of_indices ([], "") _ _ _ Hall).
  trans ((λ i, default ([], "") (ds !! i)) <$> seq 0 (length ds));
    [|by rewrite lookup_all].
  apply fmap_Permutation.
  apply submseteq_length_Permutation; [apply draw_submseteq|].
  rewrite draw_length, !length_seq. lia.
Qed.

Lemma large_count_samples_everything_witness :
  ∃ self w' items,
    __init__ (default_args 0) Demo.world = (Ok self, w')
    ∧ validation_data self = Some items
    ∧ items ≡ₚ valid_ds Demo.learner.
Proof.
  apply (large_count_samples_everything (default_args 0) Demo.world).
  - eexists. reflexivity.
  - reflexivity.
  - simpl. discriminate.
Defined.

End ConstructionMore.

(** ** More on the metrics record *)

Section LogsMore.

Import WandbCallback.

(** X15. Every value of the metrics record is the smoothed loss or one
    of the metrics: the epoch number, though first in the sequence of
    values, is never logged. *)
Theorem logged_values_are_loss_or_metrics (names : list string) (epoch : Z)
    (smooth_loss : float) (last_metrics : list float) (name : string)
    (v : LogValue) :
  logs names epoch smooth_loss last_metrics !! name = Some v →
  v = VFloat smooth_loss ∨ ∃ m, m ∈ last_metrics ∧ v = VFloat m.
Proof.
  intros [i [_ Hv]%logs_pairs_lookup]%dict_of_lookup_Some.
  unfold stats in Hv. simpl in Hv. destruct i as [|i]; simpl in Hv.
  - left. congruence.
  - right. rewrite list_lookup_fmap in Hv.
    destruct (last_metrics !! i) as [m|] eqn:Hm; [|done].
    exists m. split; [by eapply list_elem_of_lookup_2|].
    simpl in Hv. congruence.
Qed.

Lemma logged_values_are_loss_or_metrics_witness :
  VFloat 0.3 = VFloat 0.25
  ∨ ∃ m, m ∈ [0.3; 0.9]%float ∧ VFloat 0.3 = VFloat m.
Proof.
  apply (logged_values_are_loss_or_metrics
           ["epoch"; "train_loss"; "valid_loss"; "accuracy"] 2 0.25%float
           [0.3; 0.9]%float "valid_loss").
  reflexivity.
Defined.

Lemma NoDup_lookup_later (names : list string) (i j : nat) (name : string) :
  NoDup names → names !! i = Some name → (i < j)%nat →
  names !! j ≠ Some name.
Proof.
  intros Hnd Hi Hlt Hj. pose proof (NoDup_lookup _ _ _ _ Hnd Hi Hj). lia.
Qed.

(** X16. With pairwise different names of which none lacks a value (at
    most two more names than metrics), every name but the first is a key
    of the record, bound to the value at its own position, and the first
    name is not a key. *)
Theorem distinct_names_are_all_logged (names : list string) (epoch : Z)
    (smooth_loss : float) (last_metrics : list float) :
  NoDup names →
  (length names ≤ 2 + length last_metrics)%nat →
  (∀ i name,
     (1 ≤ i)%nat → names !! i = Some name →
     ∃ v, stats epoch smooth_loss last_metrics !! i = Some v
          ∧ logs names epoch smooth_loss last_metrics !! name = Some v)
  ∧ (∀ name,
       names !! 0%nat = Some name →
       logs names epoch smooth_loss last_metrics !! name = None).
Proof.
  intros Hnd Hlen. split.
  - intros i name Hi Hn.
    destruct (lookup_lt_is_Some_2 (stats epoch smooth_loss last_metrics) i)
      as [v Hv].
    { apply lookup_lt_Some in Hn. unfold stats.
      rewrite length_app, length_fmap. simpl. lia. }
    exists v. split; [done|]. apply (logs_lookup _ _ _ _ i); try done.
    intros j Hj _. by eapply NoDup_lookup_later.
  - intros name Hn. apply eq_None_not_Some.
    intros (i & [Hi _] & Hn')%logs_is_Some.
    pose proof (NoDup_lookup _ _ _ _ Hnd Hn Hn'). lia.
Qed.

Lemma distinct_names_are_all_logged_witness :
  ∃ v, stats 2 0.25 [0.3; 0.9]%float !! 3%nat = Some v
       ∧ logs ["epoch"; "train_loss"; "valid_loss"; "accuracy"] 2 0.25
              [0.3; 0.9]%float !! "accuracy"
         = Some v.
Proof.
  destruct (distinct_names_are_all_logged
              ["epoch"; "train_loss"; "valid_loss"; "accuracy"] 2
              0.25%float [0.3; 0.9]%float) as [Hall _].
  - apply (bool_decide_unpack _). vm_compute. exact I.
  - simpl. lia.
  - apply (Hall 3%nat "accuracy"); [lia|reflexivity].
Defined.

Lemma dict_of_size {V} (ps : list (string * V)) :
  (size (dict_of ps) ≤ length ps)%nat
  ∧ (NoDup ps.*1 → size (dict_of ps) = length ps).
Proof.
  induction ps as [|[k v] ps [IHle IHeq]] using rev_ind.
  - split; [|intros _]; unfold dict_of; simpl; by rewrite map_size_empty.
  - rewrite dict_of_snoc, length_app. simpl. split.
    + destruct (dict_of ps !! k) eqn:Hk.
      * rewrite map_size_insert_Some by done. lia.
      * rewrite map_size_insert_None by done. lia.
    + rewrite fmap_app. simpl. intros (Hnd & Hk & _)%NoDup_app.
      assert (dict_of ps !! k = None) as Hnone.
      { apply eq_None_not_Some. intros (i & v' & Hi)%dict_of_is_Some.
        apply (Hk k); [|left]. apply list_elem_of_fmap.
        exists (k, v'). split; [done|]. by eapply list_elem_of_lookup_2. }
      rewrite map_size_insert_None by done. rewrite IHeq by done. lia.
Qed.

Lemma fst_zip_sublist_of {A B} (l : list A) (k : list B) :
  (zip l k).*1 `sublist_of` l.
Proof.
  revert k. induction l as [|x l IH]; intros [|y k]; simpl;
    try apply sublist_nil_l.
  apply sublist_skip, IH.
Qed.

(** X17. The record has at most one entry for every name after the
    first that has a value, so at most the smaller of the number of
    names and the number of metrics plus two, less one; with pairwise
    different names it has exactly that many. *)
Theorem logs_size (names : list string) (epoch : Z) (smooth_loss : float)
    (last_metrics : list float) :
  let n := (length names `min` (2 + length last_metrics) - 1)%nat in
  (size (logs names epoch smooth_loss last_metrics) ≤ n)%nat
  ∧ (NoDup names → size (logs names epoch smooth_loss last_metrics) = n).
Proof.
  intros n.
  set (ps := slice_from_1 (zip names (stats epoch smooth_loss last_metrics))).
  assert (length ps = n) as Hlen.
  { unfold ps, slice_from_1, stats.
    rewrite length_drop, length_zip_with, length_app, length_fmap.
    simpl. lia. }
  destruct (dict_of_size ps) as [Hle Heq]. fold ps in Hle, Heq.
  unfold logs. fold ps. split; [lia|]. intros Hnd. rewrite Heq; [done|].
  unfold ps, slice_from_1. rewrite fmap_drop.
  eapply sublist_NoDup; [exact Hnd|].
  etrans; [apply sublist_drop|apply fst_zip_sublist_of].
Qed.

End LogsMore.

Section LogsSize.

Import WandbCallback.

Lemma logs_size_witness :
  size (logs ["epoch"; "train_loss"; "valid_loss"; "accuracy"] 2 0.25
          [0.3; 0.9]%float)
  = 3%nat.
Proof.
  apply (logs_size ["epoch"; "train_loss"; "valid_loss"; "accuracy"] 2
           0.25%float [0.3; 0.9]%float).
  apply (bool_decide_unpack _). vm_compute. exact I.
Defined.

End LogsSize.

(** ** Splitting keyword arguments *)

Section Kwargs.

Import Core.

Context {V : Type}.
Implicit Types (kwargs func_kwargs rest : gmap string V) (k : string).

(** Close a case where the membership tests disagree. *)
Ltac decide_args :=
  exfalso;
  match goal with
  | H : ¬ (_ ∈ _ :: _) |- _ => apply H; first [left | by right]
  | H : _ ∈ _ :: _ |- _ => apply elem_of_cons in H as [?|?]; done
  end.

Lemma pop_args_lookup (args : list string) func_kwargs kwargs k :
  (pop_args args func_kwargs kwargs).2 !! k
  = (if decide (k ∈ args) then None else kwargs !! k)
  ∧ (pop_args args func_kwargs kwargs).1 !! k
    = (if decide (k ∈ args)
       then match kwargs !! k with
            | Some v => Some v
            | None => func_kwargs !! k
            end
       else func_kwargs !! k).
Proof.
  revert func_kwargs kwargs.
  induction args as [|a args IH]; intros func_kwargs kwargs.
  - cbn [pop_args fst snd].
    destruct (decide (k ∈ [])) as [?%elem_of_nil|]; done.
  - cbn [pop_args]. destruct (kwargs !! a) as [v|] eqn:Ha.
    + destruct (IH (<[a := v]> func_kwargs) (delete a kwargs)) as [-> ->].
      destruct (decide (k = a)) as [->|Hne].
      * rewrite lookup_delete_eq, lookup_insert_eq, Ha.
        repeat case_decide; try done; decide_args.
      * rewrite lookup_delete_ne, lookup_insert_ne by done.
        repeat case_decide; try done; decide_args.
    + destruct (IH func_kwargs kwargs) as [-> ->].
      destruct (decide (k = a)) as [->|Hne].
      * rewrite ?Ha. repeat case_decide; try done; decide_args.
      * repeat case_decide; try done; decide_args.
Qed.

(** X18. [split_kwargs_by_func] splits without loss or overlap: a key
    that [func] accepts goes, with its value, to the first dictionary
    and leaves [kwargs]; any other key stays, with its value, in
    [kwargs]; so the two dictionaries share no key and together are the
    [kwargs] given. *)
Theorem split_kwargs_partition kwargs (func : Func) func_kwargs rest :
  split_kwargs_by_func kwargs func = Done (func_kwargs, rest) →
  (∀ k, has_arg func k = Done true →
        func_kwargs !! k = kwargs !! k ∧ rest !! k = None)
  ∧ (∀ k, has_arg func k = Done false →
          func_kwargs !! k = None ∧ rest !! k = kwargs !! k)
  ∧ func_kwargs ##ₘ rest
  ∧ func_kwargs ∪ rest = kwargs.
Proof.
  unfold split_kwargs_by_func, has_arg.
  destruct (func_args func) as [args|e]; [|done]. intros [= Hsplit].
  assert (∀ k, func_kwargs !! k
               = (if decide (k ∈ args) then kwargs !! k else None)
               ∧ rest !! k = (if decide (k ∈ args) then None else kwargs !! k))
    as Hlookup.
  { intros k. destruct (pop_args_lookup args ∅ kwargs k) as [Hrest Hfirst].
    rewrite Hsplit in Hrest, Hfirst. simpl in *. rewrite Hrest, Hfirst.
    rewrite lookup_empty. split; [|done].
    destruct (decide (k ∈ args)); [|done]. by destruct (kwargs !! k). }
  split_and!.
  - intros k [= Hk]. apply bool_decide_eq_true in Hk.
    destruct (Hlookup k) as [H1 H2]. rewrite H1, H2.
    by rewrite !decide_True.
  - intros k [= Hk]. apply bool_decide_eq_false in Hk.
    destruct (Hlookup k) as [H1 H2]. rewrite H1, H2.
    by rewrite !decide_False.
  - apply map_disjoint_spec. intros k x y Hx Hy.
    destruct (Hlookup k) as [H1 H2]. rewrite Hx in H1. rewrite Hy in H2.
    by destruct (decide (k ∈ args)).
  - apply map_eq. intros k. rewrite lookup_union.
    destruct (Hlookup k) as [H1 H2]. rewrite H1, H2.
    destruct (decide (k ∈ args)); by destruct (kwargs !! k).
Qed.

(** X19. After a split nothing that [func] accepts is left in
    [kwargs]: splitting the rest once more by the same function gives
    an empty first dictionary and the same rest. *)
Theorem split_kwargs_again kwargs (func : Func) func_kwargs rest :
  split_kwargs_by_func kwargs func = Done (func_kwargs, rest) →
  split_kwargs_by_func rest func = Done (∅, rest).
Proof.
  unfold split_kwargs_by_func.
  destruct (func_args func) as [args|e]; [|done]. intros [= Hsplit].
  f_equal. destruct (pop_args args ∅ rest) as [fk' rest'] eqn:Hagain.
  assert (∀ k, rest !! k = if decide (k ∈ args) then None else kwargs !! k)
    as Hrest.
  { intros k. destruct (pop_args_lookup args ∅ kwargs k) as [H _].
    by rewrite Hsplit in H. }
  f_equal; apply map_eq; intros k;
    destruct (pop_args_lookup args ∅ rest k) as [H2 H1];
    rewrite Hagain in H1, H2; simpl in *.
  - rewrite H1, lookup_empty, Hrest. by destruct (decide (k ∈ args)).
  - rewrite H2, Hrest. by destruct (decide (k ∈ args)).
Qed.

End Kwargs.

Section KwargsCases.

Import Core.

Lemma split_kwargs_partition_witness :
  ({[ "a" := 1 ]} : gmap string Z) ##ₘ {[ "c" := 3; "x" := 7 ]}
  ∧ ({[ "a" := 1 ]} : gmap string Z) ∪ {[ "c" := 3; "x" := 7 ]}
    = Cases.kwargs.
Proof.
  apply (split_kwargs_partition Cases.kwargs Cases.f {[ "a" := 1 ]}
           {[ "c" := 3; "x" := 7 ]}).
  by vm_compute.
Defined.

Lemma split_kwargs_again_witness :
  split_kwargs_by_func ({[ "c" := 3; "x" := 7 ]} : gmap string Z) Cases.f
  = Done (∅, {[ "c" := 3; "x" := 7 ]}).
Proof.
  apply (split_kwargs_again Cases.kwargs Cases.f {[ "a" := 1 ]}).
  by vm_compute.
Defined.

(** X20. With pairwise different variable names, [has_arg] says yes
    exactly for the names among the first [co_argcount]: a keyword-only
    parameter or a local variable of the function is not an argument for
    it, and a name the function does not know is not one either. *)
Theorem has_arg_positional_only (func : Func) (code : Code) :
  __code__ func = Some code →
  NoDup (co_varnames code) →
  (∀ i name,
     co_varnames code !! i = Some name →
     has_arg func name = Done (bool_decide (i < co_argcount code)%nat))
  ∧ (∀ name, name ∉ co_varnames code → has_arg func name = Done false).
Proof.
  intros Hcode Hnd. unfold has_arg, func_args. rewrite Hcode. split.
  - intros i name Hi. f_equal. apply bool_decide_ext. split.
    + intros [j Hj]%list_elem_of_lookup_1.
      apply lookup_take_Some in Hj as [Hj Hlt].
      by rewrite (NoDup_lookup _ _ _ _ Hnd Hi Hj).
    + intros Hlt. apply (list_elem_of_lookup_2 _ i).
      by rewrite lookup_take_lt.
  - intros name Hnot. f_equal. apply bool_decide_eq_false.
    intros Hin. apply Hnot. eapply elem_of_submseteq; [done|].
    apply sublist_submseteq, sublist_take.
Qed.

Lemma has_arg_positional_only_witness :
  has_arg Cases.f "c" = Done false ∧ has_arg Cases.f "b" = Done true.
Proof.
  destruct (has_arg_positional_only Cases.f
              {| co_varnames := ["a"; "b"; "c"; "d"]; co_argcount := 2 |}
              eq_refl) as [Hpos _].
  - apply (bool_decide_unpack _). vm_compute. exact I.
  - split.
    + apply (Hpos 2%nat "c"). reflexivity.
    + apply (Hpos 1%nat "b"). reflexivity.
Defined.

End KwargsCases.

(** ** Grabbing one item of a batch *)

Section GrabIdxFacts.

Import Core.

Context {T : Type}.
Variable select : T → Z → try T.
Variable select_column : T → Z → try T.
Variable cpu : T → T.

Lemma for_each_done (f : T → try T) (l r : list T) :
  for_each f l = Done r ↔ Forall2 (λ o o', f o = Done o') l r.
Proof.
  revert r. induction l as [|o l IH]; intros r; simpl.
  - split; [intros [= <-]; constructor|by inversion 1].
  - destruct (f o) as [o'|e] eqn:Ho.
    + destruct (for_each f l) as [r'|e] eqn:Hl.
      * split.
        -- intros [= <-]. constructor; [done|]. by apply IH.
        -- inversion 1 as [|? o2 ? r2 Ho2 Hr2]; subst.
           rewrite Ho in Ho2. injection Ho2 as <-.
           apply IH in Hr2. by injection Hr2 as <-.
      * split; [done|]. inversion 1 as [|? o2 ? r2 Ho2 Hr2]; subst.
        by apply IH in Hr2.
    + split; [done|]. inversion 1 as [|? o2 ? r2 Ho2 Hr2]; subst.
      congruence.
Qed.

Lemma for_each_fail (f : T → try T) (l : list T) (e : error) :
  for_each f l = Fail e
  ↔ ∃ j o, l !! j = Some o ∧ f o = Fail e
           ∧ ∀ j' o', (j' < j)%nat → l !! j' = Some o' →
                      ∃ r, f o' = Done r.
Proof.
  induction l as [|o l IH].
  - simpl. split; [done|]. by intros (j & o & ? & _).
  - cbn [for_each]. destruct (f o) as [o1|e1] eqn:Ho.
    + trans (for_each f l = Fail e).
      { destruct (for_each f l); split; congruence. }
      rewrite IH. split.
      * intros (j & o2 & Hj & Hf & Hbefore). exists (S j), o2.
        split; [done|]. split; [done|]. intros [|j'] o3 Hlt Hj'.
        -- simpl in Hj'. injection Hj' as <-. by eexists.
        -- apply (Hbefore j' o3); [lia|done].
      * intros ([|j] & o2 & Hj & Hf & Hbefore).
        -- simpl in Hj. congruence.
        -- exists j, o2. split; [done|]. split; [done|].
           intros j' o3 Hlt Hj'. apply (Hbefore (S j') o3); [lia|done].
    + split.
      * intros [= ->]. exists 0%nat, o. split; [done|]. split; [done|].
        intros j' o' Hlt. lia.
      * intros ([|j] & o2 & Hj & Hf & Hbefore).
        -- simpl in Hj. congruence.
        -- destruct (Hbefore 0%nat o) as [r Hr]; [lia|done|]. congruence.
Qed.

(** X21. [grab_idx] on a list or a tuple of tensors returns a list, also
    for a tuple, with one entry for every member, in the same order: the
    [i]-th item of the member, moved to the CPU.  It raises exactly when
    indexing a member raises, with the error of the first such
    member. *)
Theorem grab_idx_listy (x : Batch T) (l : list T) (i : Z)
    (batch_first : bool) :
  x = PyList l ∨ x = PyTuple l →
  is_listy x = true
  ∧ (∀ r,
       grab_idx select select_column cpu x i batch_first = Done r
       ↔ ∃ rs, r = PyList rs
               ∧ Forall2
                   (λ o o', grab_one select select_column cpu i batch_first o
                            = Done o')
                   l rs)
  ∧ (∀ e,
       grab_idx select select_column cpu x i batch_first = Fail e
       ↔ ∃ j o,
           l !! j = Some o
           ∧ grab_one select select_column cpu i batch_first o = Fail e
           ∧ ∀ j' o', (j' < j)%nat → l !! j' = Some o' →
                      ∃ r, grab_one select select_column cpu i batch_first o'
                           = Done r).
Proof.
  intros Hx.
  assert (grab_idx select select_column cpu x i batch_first
          = match for_each (grab_one select select_column cpu i batch_first) l
            with
            | Done r => Done (PyList r)
            | Fail e => Fail e
            end) as ->.
  { by destruct Hx as [-> | ->]. }
  split; [by destruct Hx as [-> | ->]|].
  split.
  - intros r.
    destruct (for_each _ l) as [rs|e] eqn:Hfe; split.
    + intros [= <-]. exists rs. split; [done|]. by apply for_each_done.
    + intros (rs' & -> & Hall). apply for_each_done in Hall. congruence.
    + done.
    + intros (rs' & _ & Hall). apply for_each_done in Hall. congruence.
  - intros e.
    destruct (for_each _ l) as [rs|e'] eqn:Hfe; split.
    + done.
    + intros H. apply for_each_fail in H. congruence.
    + intros [= ->]. by apply for_each_fail.
    + intros H. apply for_each_fail in H. congruence.
Qed.

End GrabIdxFacts.

Section GrabIdxCases.

Import Core.

Lemma grab_idx_listy_witness :
  is_listy (PyTuple [[[1; 2]; [3; 4]]; [[5; 6]; [7; 8]]]) = true
  ∧ grab_idx Cases.select Cases.select_column id
      (PyTuple [[[1; 2]; [3; 4]]; [[5; 6]; [7; 8]]]) (-1) false
    = Done (PyList [[[2; 4]]; [[6; 8]]]).
Proof.
  destruct (grab_idx_listy Cases.select Cases.select_column id
              (PyTuple [[[1; 2]; [3; 4]]; [[5; 6]; [7; 8]]])
              [[[1; 2]; [3; 4]]; [[5; 6]; [7; 8]]] (-1) false)
    as (Hlisty & Hdone & _).
  - right. reflexivity.
  - split; [exact Hlisty|]. apply Hdone.
    exists [[[2; 4]]; [[6; 8]]]. split; [reflexivity|].
    repeat constructor.
Defined.

End GrabIdxCases.
